(** * DataLink-AI: the join engine of [services/dataService.ts] and the
      response handling of [services/geminiService.ts], embedded in Rocq.

    The development follows the TypeScript sources function by function.
    JavaScript values are a closed inductive type, strings are sequences of
    code units ([string]), JavaScript [Map]s and [Set]s are association lists
    and lists in insertion order (the order is observable: it fixes the order
    of the joined rows), and objects are association lists in property
    enumeration order.  Loops that mutate an accumulator ([forEach] with
    [push], [reduce]) are left folds over that accumulator. *)

From Stdlib Require Import String Ascii Bool Arith ZArith Lia DecimalString List.
Import ListNotations.
Open Scope string_scope.
Open Scope list_scope.
Open Scope nat_scope.

(* ================================================================== *)
(** * JavaScript values and the built-ins the sources rely on *)
(* ================================================================== *)

Module Js.

(** A JavaScript value as the engine can meet it: what a sheet reader or
    [JSON.parse] produces.  Numbers are the integer-valued ones, for which
    [String(n)] is the decimal numeral. *)
#[warnings="-register-all"]
Inductive value : Type :=
| VUndefined
| VNull
| VBool (b : bool)
| VNum (n : Z)
| VStr (s : string)
| VArr (items : list value)
| VObj (props : list (string * value)).

(** A plain object: its own enumerable properties in enumeration order.
    Objects are read through [obj_get]; where an engine would enumerate
    integer-like property names first, no result below depends on it. *)
Definition object : Type := list (string * value).

(** [o[k]]: the value of property [k], [undefined] when [o] has none. *)
Fixpoint obj_get (o : object) (k : string) : value :=
  match o with
  | [] => VUndefined
  | (k', v) :: rest => if String.eqb k' k then v else obj_get rest k
  end.

(** [o[k] = v]: overwrite in place, or add the property at the end. *)
Fixpoint obj_set (o : object) (k : string) (v : value) : object :=
  match o with
  | [] => [(k, v)]
  | (k', v') :: rest =>
      if String.eqb k' k then (k, v) :: rest else (k', v') :: obj_set rest k v
  end.

(** [Object.keys(o)]. *)
Definition obj_keys (o : object) : list string := map fst o.

(** [typeof v === 'object'] (true of [null], arrays and objects). *)
Definition typeof_object (v : value) : bool :=
  match v with
  | VNull | VArr _ | VObj _ => true
  | _ => false
  end.

(** [Array.isArray(v)]. *)
Definition isArray (v : value) : bool :=
  match v with VArr _ => true | _ => false end.

(** [v === null || v === undefined]. *)
Definition isNullish (v : value) : bool :=
  match v with VNull | VUndefined => true | _ => false end.

(** ** Strings *)

(** The decimal numeral of an integer, as [String(n)] prints it. *)
Definition decimal (n : Z) : string := NilZero.string_of_int (Z.to_int n).

(** The decimal numeral of a length or a count. *)
Definition decimal_nat (n : nat) : string := NilZero.string_of_uint (Nat.to_uint n).

(** White space and line terminators that [String.prototype.trim] removes,
    among the code units below 256: TAB, LF, VT, FF, CR, SP and NBSP. *)
Definition isWhiteSpace (c : ascii) : bool :=
  let n := nat_of_ascii c in
  ((9 <=? n) && (n <=? 13)) || (n =? 32) || (n =? 160).

Fixpoint trimStart (s : string) : string :=
  match s with
  | EmptyString => EmptyString
  | String c rest => if isWhiteSpace c then trimStart rest else s
  end.

Fixpoint trimEnd (s : string) : string :=
  match s with
  | EmptyString => EmptyString
  | String c rest =>
      match trimEnd rest with
      | EmptyString => if isWhiteSpace c then EmptyString else String c EmptyString
      | t => String c t
      end
  end.

(** [s.trim()]. *)
Definition trim (s : string) : string := trimEnd (trimStart s).

(** [arr.join(sep)] on an array of strings. *)
Definition join (sep : string) (l : list string) : string := String.concat sep l.

(** [String(v)].  An array prints its elements separated by commas, [null]
    and [undefined] elements as nothing; a plain object prints as
    [[object Object]]. *)
Fixpoint toString (v : value) : string :=
  match v with
  | VUndefined => "undefined"
  | VNull => "null"
  | VBool b => if b then "true" else "false"
  | VNum n => decimal n
  | VStr s => s
  | VArr items =>
      join "," (map (fun x => match x with
                              | VUndefined | VNull => ""
                              | _ => toString x
                              end) items)
  | VObj _ => "[object Object]"
  end.

(** [Array.prototype.join]: [null] and [undefined] elements print as
    nothing. *)
Definition array_join (sep : string) (l : list value) : string :=
  join sep (map (fun x => if isNullish x then "" else toString x) l).

(** ** [JSON.stringify] *)

Definition dquote : ascii := ascii_of_nat 34.
Definition backslash : ascii := ascii_of_nat 92.

Definition hexDigit (n : nat) : ascii :=
  if n <? 10 then ascii_of_nat (48 + n) else ascii_of_nat (87 + n).

(** The escape of one code unit inside a JSON string literal. *)
Definition jsonEscape (c : ascii) : string :=
  let n := nat_of_ascii c in
  if n =? 34 then String backslash (String dquote "")
  else if n =? 92 then String backslash (String backslash "")
  else if n =? 8 then String backslash "b"
  else if n =? 9 then String backslash "t"
  else if n =? 10 then String backslash "n"
  else if n =? 12 then String backslash "f"
  else if n =? 13 then String backslash "r"
  else if n <? 32 then
    String backslash ("u00" ++ String (hexDigit (n / 16)) (String (hexDigit (n mod 16)) ""))%string
  else String c "".

Fixpoint jsonEscapeAll (s : string) : string :=
  match s with
  | EmptyString => EmptyString
  | String c rest => (jsonEscape c ++ jsonEscapeAll rest)%string
  end.

Definition jsonQuote (s : string) : string :=
  String dquote (jsonEscapeAll s ++ String dquote "")%string.

(** The JSON text of a value.  [undefined] is reached only as an array
    element, where it prints as [null]; an object property whose value is
    [undefined] is left out. *)
Fixpoint jsonText (v : value) : string :=
  match v with
  | VUndefined => "null"
  | VNull => "null"
  | VBool b => if b then "true" else "false"
  | VNum n => decimal n
  | VStr s => jsonQuote s
  | VArr items => ("[" ++ join "," (map jsonText items) ++ "]")%string
  | VObj props =>
      ("{" ++ join "," (flat_map (fun kv => match kv with
                                           | (_, VUndefined) => []
                                           | (k, x) => [(jsonQuote k ++ ":" ++ jsonText x)%string]
                                           end) props) ++ "}")%string
  end.

(** [JSON.stringify(v)]: [undefined] for [undefined], a string otherwise. *)
Definition JSON_stringify (v : value) : value :=
  match v with
  | VUndefined => VUndefined
  | _ => VStr (jsonText v)
  end.

(** ** [Map<string, V>] and [Set<string>], in insertion order *)

Section JsMap.
Context {V : Type}.

Definition jsmap : Type := list (string * V).

(** [m.get(k)]. *)
Fixpoint map_get (m : jsmap) (k : string) : option V :=
  match m with
  | [] => None
  | (k', v) :: rest => if String.eqb k' k then Some v else map_get rest k
  end.

(** [m.has(k)]. *)
Definition map_has (m : jsmap) (k : string) : bool :=
  match map_get m k with Some _ => true | None => false end.

(** [m.set(k, v)]: a known key keeps its place, a new one goes last. *)
Fixpoint map_set (m : jsmap) (k : string) (v : V) : jsmap :=
  match m with
  | [] => [(k, v)]
  | (k', v') :: rest =>
      if String.eqb k' k then (k, v) :: rest else (k', v') :: map_set rest k v
  end.

(** [m.keys()]. *)
Definition map_keys (m : jsmap) : list string := map fst m.
End JsMap.
Arguments jsmap V : clear implicits.

(** [s.has(k)] and [s.add(k)] on a [Set<string>]. *)
Definition set_has (s : list string) (k : string) : bool :=
  existsb (String.eqb k) s.

Definition set_add (s : list string) (k : string) : list string :=
  if set_has s k then s else s ++ [k].

End Js.

Import Js.

(* ================================================================== *)
(** * [types.ts] *)
(* ================================================================== *)

(** [ParsedFile], with the fields the services read or write.  The random
    [id], the byte [size] and the chat context play no part in a join. *)
Record ParsedFile : Type := {
  name : string;
  headers : list string;
  previewData : list object;
  data : list object;
  rowCount : nat;
  isJoined : bool
}.

Record ColumnMapping : Type := {
  fileName : string;
  columnName : string
}.

Record JoinCandidate : Type := {
  keyName : string;
  confidenceScore : nat;
  reasoning : string;
  columnMappings : list ColumnMapping
}.

Inductive JoinType : Type := INNER | OUTER | LEFT | ADDITIVE | AI_SEMANTIC.

Definition JoinType_eqb (a b : JoinType) : bool :=
  match a, b with
  | INNER, INNER | OUTER, OUTER | LEFT, LEFT
  | ADDITIVE, ADDITIVE | AI_SEMANTIC, AI_SEMANTIC => true
  | _, _ => false
  end.

(** [JoinStats]: one count per join type. *)
Record JoinStats : Type := {
  statINNER : nat;
  statOUTER : nat;
  statLEFT : nat;
  statADDITIVE : nat;
  statAI_SEMANTIC : nat
}.

(** [stats[joinType]]. *)
Definition stat (s : JoinStats) (t : JoinType) : nat :=
  match t with
  | INNER => statINNER s
  | OUTER => statOUTER s
  | LEFT => statLEFT s
  | ADDITIVE => statADDITIVE s
  | AI_SEMANTIC => statAI_SEMANTIC s
  end.

(* ================================================================== *)
(** * [services/dataService.ts] *)
(* ================================================================== *)

Module DataService.

(** [normalizeKey]: the empty string for [null] and [undefined], the
    trimmed string form otherwise. *)
Definition normalizeKey (val : value) : string :=
  if isNullish val then "" else trim (toString val).

(** [getKeyColumnForFile]: the column of the first mapping that names the
    file, [undefined] when there is none. *)
Definition getKeyColumnForFile (file : ParsedFile) (candidate : JoinCandidate)
  : option string :=
  option_map columnName
    (find (fun m => String.eqb (fileName m) (name file)) (columnMappings candidate)).

(** [counts.get(val) || 0]. *)
Definition orZero (c : option nat) : nat :=
  match c with Some n => n | None => 0 end.

(** [getKeyCountsFromFile]: how often each non-empty normalized key occurs.
    [!keyCol] holds of [undefined] and of the empty string. *)
Definition getKeyCountsFromFile (file : ParsedFile) (candidate : JoinCandidate)
  : jsmap nat :=
  match getKeyColumnForFile file candidate with
  | None => []
  | Some keyCol =>
      if String.eqb keyCol "" then []
      else
        fold_left
          (fun counts row =>
             let rawVal := obj_get row keyCol in
             let val := normalizeKey rawVal in
             if String.eqb val "" then counts
             else map_set counts val (orZero (map_get counts val) + 1))
          (data file) []
  end.

(** The union of the keys of a list of maps, as the [Set] collects them. *)
Definition unionKeys {V : Type} (maps : list (jsmap V)) : list string :=
  fold_left (fun allKeys m => fold_left set_add (map_keys m) allKeys) maps [].

Definition zeroStats : JoinStats :=
  {| statINNER := 0; statOUTER := 0; statLEFT := 0;
     statADDITIVE := 0; statAI_SEMANTIC := 0 |}.

(** [c === 0 ? 1 : c]. *)
Definition orOne (c : nat) : nat := if c =? 0 then 1 else c.

(** [calculateJoinStats]. *)
Definition calculateJoinStats (files : list ParsedFile) (candidate : JoinCandidate)
  : JoinStats :=
  let fileKeyCounts := map (fun f => getKeyCountsFromFile f candidate) files in
  if length fileKeyCounts =? 0 then zeroStats
  else
    let allKeys := unionKeys fileKeyCounts in
    let '(innerCount, outerCount, leftCount) :=
      fold_left
        (fun '(innerCount, outerCount, leftCount) key =>
           let counts := map (fun m => orZero (map_get m key)) fileKeyCounts in
           let product := fold_left (fun acc c => acc * c) counts 1 in
           let outerProduct := fold_left (fun acc c => acc * orOne c) counts 1 in
           let leftCount' :=
             if 0 <? nth 0 counts 0 then
               let leftProduct := fold_left (fun acc c => acc * orOne c) (tl counts) 1 in
               leftCount + nth 0 counts 0 * leftProduct
             else leftCount in
           (innerCount + product, outerCount + outerProduct, leftCount'))
        allKeys (0, 0, 0) in
    {| statINNER := innerCount; statOUTER := outerCount; statLEFT := leftCount;
       statADDITIVE := outerCount; statAI_SEMANTIC := 0 |}.

(** The map of one file built in step 1 of [joinDatasets]: normalized key
    to the rows that carry it. *)
Definition fileDataMap (file : ParsedFile) (candidate : JoinCandidate)
  : jsmap (list object) :=
  match getKeyColumnForFile file candidate with
  | None => []
  | Some keyCol =>
      if String.eqb keyCol "" then []
      else
        fold_left
          (fun m row =>
             let val := normalizeKey (obj_get row keyCol) in
             if String.eqb val "" then m
             else
               let m1 := if map_has m val then m else map_set m val [] in
               match map_get m1 val with
               | Some rows => map_set m1 val (rows ++ [row])
               | None => m1
               end)
          (data file) []
  end.

(** The helper [cartesian] of [joinDatasets]. *)
Definition cartesian {A : Type} (arrays : list (list A)) : list (list A) :=
  fold_left (fun acc curr => flat_map (fun a => map (fun c => a ++ [c]) curr) acc)
            arrays [[]].

(** [rowsPerFile]: per file the rows of the key, or the single placeholder
    [null] ([None]).  [fileDataMaps] has one map per file, at the file's
    index, so that mapping over it is [files.map((_, index) => ...)]. *)
Definition rowsPerFile (fileDataMaps : list (jsmap (list object))) (key : string)
  : list (list (option object)) :=
  map (fun m => match map_get m key with
                | Some rows => if 0 <? length rows then map Some rows else [None]
                | None => [None]
                end) fileDataMaps.

(** [hasDataInFile]: [arr[0] !== null]. *)
Definition hasDataInFile (rows : list (list (option object))) : list bool :=
  map (fun arr => match arr with None :: _ => false | _ => true end) rows.

(** [name.replace(/\.[^/.]+$/, "")]: the pattern matches at a dot that is
    followed by one or more characters, none of them a slash or a dot, up to
    the end of the name; the leftmost match is removed. *)
Fixpoint extensionChars (s : string) : bool :=
  match s with
  | EmptyString => true
  | String c rest =>
      negb (Ascii.eqb c "/") && negb (Ascii.eqb c ".") && extensionChars rest
  end.

Definition matchesExtension (s : string) : bool :=
  match s with
  | String c (String _ _ as tail) => Ascii.eqb c "." && extensionChars tail
  | _ => false
  end.

Fixpoint stripExtension (s : string) : string :=
  match s with
  | EmptyString => EmptyString
  | String c rest =>
      if matchesExtension s then EmptyString else String c (stripExtension rest)
  end.

(** [[a-zA-Z0-9]]. *)
Definition isAlnum (c : ascii) : bool :=
  let n := nat_of_ascii c in
  ((48 <=? n) && (n <=? 57)) || ((65 <=? n) && (n <=? 90)) || ((97 <=? n) && (n <=? 122)).

(** [s.replace(/[^a-zA-Z0-9]/g, "_")]. *)
Fixpoint replaceNonAlnum (s : string) : string :=
  match s with
  | EmptyString => EmptyString
  | String c rest => String (if isAlnum c then c else "_"%char) (replaceNonAlnum rest)
  end.

(** [cleanFileName] / [cleanName]. *)
Definition cleanFileName (fname : string) : string :=
  replaceNonAlnum (stripExtension fname).

(** [newColName]: the template [`${cleanFileName} - ${col}`]. *)
Definition newColName (fname col : string) : string :=
  (cleanFileName fname ++ " - " ++ col)%string.

(** [foundInFiles.includes(n)]. *)
Definition includes (l : list string) (n : string) : bool :=
  existsb (String.eqb n) l.

(** The body of [Object.entries(row).forEach] for a non-null row. *)
Definition addColumns (file : ParsedFile) (candidate : JoinCandidate)
           (row : object) (joinedRow : object) : object :=
  let keyCol := getKeyColumnForFile file candidate in
  fold_left
    (fun joinedRow '(col, val) =>
       if match keyCol with Some k => String.eqb col k | None => false end
       then joinedRow
       else obj_set joinedRow (newColName (name file) col) val)
    row joinedRow.

(** The state of [combo.forEach]: the row under construction, then
    [foundInFiles] and [missingInFiles]. *)
Definition scanCombo (files : list ParsedFile) (candidate : JoinCandidate)
           (key : string) (combo : list (option object))
  : object * list string * list string :=
  fold_left
    (fun '(joinedRow, foundInFiles, missingInFiles) '(row, file) =>
       match row with
       | Some r =>
           (addColumns file candidate r joinedRow,
            foundInFiles ++ [name file], missingInFiles)
       | None => (joinedRow, foundInFiles, missingInFiles ++ [name file])
       end)
    (combine combo files) ([(keyName candidate, VStr key)], [], []).

(** The value of [_Join_Status]. *)
Definition joinStatus (foundInFiles missingInFiles : list string) (total : nat)
  : string :=
  if length missingInFiles =? 0 then "Matched (All Files)"
  else if length foundInFiles =? 1 then
    ("Unique to " ++ nth 0 foundInFiles "undefined")%string
  else
    ("Partial Match (Found in " ++ decimal_nat (length foundInFiles) ++ "/"
       ++ decimal_nat total ++ ")")%string.

(** The additive flags written after the columns. *)
Definition addFlags (files : list ParsedFile) (foundInFiles missingInFiles : list string)
           (joinedRow : object) : object :=
  let joinedRow :=
    obj_set joinedRow "_Join_Status"
            (VStr (joinStatus foundInFiles missingInFiles (length files))) in
  fold_left
    (fun joinedRow f =>
       let cleanName := cleanFileName (name f) in
       obj_set joinedRow ("_Found_In_" ++ cleanName)%string
               (VStr (if includes foundInFiles (name f) then "TRUE" else "FALSE")))
    files joinedRow.

(** The body of [combinations.forEach]: the record of one combination. *)
Definition joinedRowOf (files : list ParsedFile) (candidate : JoinCandidate)
           (joinType : JoinType) (key : string) (combo : list (option object))
  : object :=
  let '(joinedRow, foundInFiles, missingInFiles) :=
    scanCombo files candidate key combo in
  if JoinType_eqb joinType ADDITIVE
  then addFlags files foundInFiles missingInFiles joinedRow
  else joinedRow.

(** [joinDatasets]. *)
Definition joinDatasets (files : list ParsedFile) (candidate : JoinCandidate)
           (joinType : JoinType) : list object :=
  let fileDataMaps := map (fun file => fileDataMap file candidate) files in
  let allKeys := unionKeys fileDataMaps in
  fold_left
    (fun result key =>
       let rows := rowsPerFile fileDataMaps key in
       let hasData := hasDataInFile rows in
       if JoinType_eqb joinType INNER && existsb negb hasData then result
       else if JoinType_eqb joinType LEFT && negb (nth 0 hasData false) then result
       else
         let combinations := cartesian rows in
         fold_left
           (fun result combo =>
              result ++ [joinedRowOf files candidate joinType key combo])
           combinations result)
    allKeys [].

(** The sanitizing of one value in [createJoinedFile]. *)
Definition sanitizeValue (val : value) : value :=
  if isNullish val then VNull
  else if typeof_object val then
    match val with
    | VArr items =>
        VStr (array_join " | "
                (map (fun v => if typeof_object v then JSON_stringify v
                               else VStr (toString v)) items))
    | _ => JSON_stringify val
    end
  else val.

Definition sanitizeRow (row : object) : object :=
  fold_left (fun newRow k => obj_set newRow k (sanitizeValue (obj_get row k)))
            (obj_keys row) [].

(** [createJoinedFile]. *)
Definition createJoinedFile (rows : list object) (fname : string) : ParsedFile :=
  let sanitizedData := map sanitizeRow rows in
  let headers :=
    match sanitizedData with
    | first :: _ => obj_keys first
    | [] => []
    end in
  {| name := fname;
     headers := headers;
     previewData := firstn 10 sanitizedData;
     data := sanitizedData;
     rowCount := length sanitizedData;
     isJoined := true |}.

End DataService.

(* ================================================================== *)
(** * [services/geminiService.ts]: the semantic merge *)
(* ================================================================== *)

Module GeminiService.

(** How a piece of code ends: with a value, or with a thrown error. *)
Inductive completion (A : Type) : Type :=
| Returned (a : A)
| Thrown (message : string).
Arguments Returned {A} a.
Arguments Thrown {A} message.

(** [Object.keys(row)] read back through [row[key]]: the properties of an
    object, the indexed elements of an array. *)
Definition entries (row : value) : object :=
  match row with
  | VObj props => props
  | VArr items => combine (map decimal_nat (seq 0 (length items))) items
  | _ => []
  end.

(** The flattening of one value of a returned row. *)
Definition flattenValue (val : value) : value :=
  if isNullish val then VNull
  else if isArray val then
    match val with
    | VArr items =>
        VStr (array_join " | "
                (map (fun v => if typeof_object v then JSON_stringify v
                               else VStr (toString v)) items))
    | _ => val
    end
  else if typeof_object val then JSON_stringify val
  else val.

(** The callback of [rawResult.map]. *)
Definition cleanRowOf (row : value) : object :=
  if negb (typeof_object row) || match row with VNull => true | _ => false end
  then []
  else
    fold_left
      (fun cleanRow key =>
         let val := obj_get (entries row) key in
         obj_set cleanRow key (flattenValue val))
      (obj_keys (entries row)) [].

Section SemanticMerge.
(** [JSON.parse]: the parsed value, or a thrown [SyntaxError]. *)
Variable JSON_parse : string -> completion value.

(** Lines 199-235: what is done with [response.text]. *)
Definition handleResponse (text : option string) : completion (list object) :=
  match text with
  | None => Returned []
  | Some t =>
      if String.eqb t "" then Returned []
      else
        match JSON_parse t with
        | Thrown _ => Returned []
        | Returned rawResult =>
            match rawResult with
            | VArr rows => Returned (map cleanRowOf rows)
            | _ => Returned []
            end
        end
  end.

(** [generateSemanticMerge], given the API key of the environment and the
    completion of the awaited [generateContent] call ([response.text], or
    a rejection).  Whatever is thrown inside is caught and thrown anew
    under one message. *)
Definition generateSemanticMerge (apiKey : option string)
           (generateContent : completion (option string))
  : completion (list object) :=
  let body :=
    match apiKey with
    | None => Thrown "API Key not found"
    | Some k =>
        if String.eqb k "" then Thrown "API Key not found"
        else
          match generateContent with
          | Thrown e => Thrown e
          | Returned text => handleResponse text
          end
    end in
  match body with
  | Returned rows => Returned rows
  | Thrown _ => Thrown "Failed to perform AI Semantic Merge."
  end.
End SemanticMerge.

End GeminiService.

(* ================================================================== *)
(** * The demo workspace of [components/FileUpload.tsx] *)
(* ================================================================== *)

Module Demo.

Definition customer (id : Z) (company region contact : string) : object :=
  [("CustomerID", VNum id); ("Company", VStr company);
   ("Region", VStr region); ("Contact", VStr contact)].

Definition order (oid : string) (ref : Z) (product : string) (amount : Z) : object :=
  [("OrderID", VStr oid); ("Cust_Ref_ID", VNum ref);
   ("Product", VStr product); ("Amount", VNum amount)].

Definition customers : list object :=
  [customer 101 "TechCorp" "North" "Alice Smith";
   customer 102 "BizSolutions" "South" "Bob Jones";
   customer 103 "GlobalTrade" "East" "Charlie Day";
   customer 104 "StartUp Inc" "West" "Diana Prince";
   customer 105 "MegaCorp" "North" "Eve Polastri"].

Definition orders : list object :=
  [order "ORD-001" 101 "Server Rack" 5000;
   order "ORD-002" 101 "Maintenance" 1200;
   order "ORD-003" 102 "Consulting" 3000;
   order "ORD-004" 103 "Software Lic" 800;
   order "ORD-005" 103 "Support" 400;
   order "ORD-006" 999 "Mystery Purchase" 100].

Definition mkFile (fname : string) (rows : list object) : ParsedFile :=
  {| name := fname;
     headers := match rows with first :: _ => obj_keys first | [] => [] end;
     previewData := rows;
     data := rows;
     rowCount := length rows;
     isJoined := false |}.

Definition demoFiles : list ParsedFile :=
  [mkFile "CRM_Customers.csv" customers; mkFile "Sales_Orders.csv" orders].

(** A candidate as the discovery service proposes it for the demo files. *)
Definition demoCandidate : JoinCandidate :=
  {| keyName := "Customer ID";
     confidenceScore := 95;
     reasoning := "";
     columnMappings :=
       [{| fileName := "CRM_Customers.csv"; columnName := "CustomerID" |};
        {| fileName := "Sales_Orders.csv"; columnName := "Cust_Ref_ID" |}] |}.

End Demo.

Import DataService GeminiService.

(* ================================================================== *)
(** * The join as the specification words it *)
(* ================================================================== *)

(** The definitions of this module follow the specification's sentences,
    not the code; the theorems below compare the two. *)
Module Reference.

(** The normalized key of a row of a file under a candidate; the empty
    string, the sentinel for a row that cannot be joined, when the file has
    no mapped key column. *)
Definition rowKey (file : ParsedFile) (candidate : JoinCandidate) (row : object)
  : string :=
  match getKeyColumnForFile file candidate with
  | None => ""
  | Some keyCol =>
      if String.eqb keyCol "" then "" else normalizeKey (obj_get row keyCol)
  end.

(** The key group: the rows of the file that carry key [k], in the file's
    row order. *)
Definition group (file : ParsedFile) (candidate : JoinCandidate) (k : string)
  : list object :=
  filter (fun row => String.eqb (rowKey file candidate row) k) (data file).

(** [counts(k)[i]]: how many rows of the file carry key [k]. *)
Definition occurrences (file : ParsedFile) (candidate : JoinCandidate) (k : string)
  : nat :=
  length (group file candidate k).

(** The non-empty normalized keys of a file, row by row. *)
Definition keyStream (file : ParsedFile) (candidate : JoinCandidate) : list string :=
  filter (fun k => negb (String.eqb k "")) (map (rowKey file candidate) (data file)).

(** Each element once, at the place of its first occurrence. *)
Fixpoint firstOccurrences (l : list string) : list string :=
  match l with
  | [] => []
  | x :: rest => x :: filter (fun y => negb (String.eqb y x)) (firstOccurrences rest)
  end.

(** The union of all keys, in first-encountered order scanning the datasets
    in their given order. *)
Definition allKeys (files : list ParsedFile) (candidate : JoinCandidate)
  : list string :=
  firstOccurrences (flat_map (fun f => keyStream f candidate) files).

Definition sumOf (l : list nat) : nat := fold_right Nat.add 0 l.
Definition productOf (l : list nat) : nat := fold_right Nat.mul 1 l.

(** The per-key contributions of 4.3. *)
Definition innerTerm (files : list ParsedFile) (c : JoinCandidate) (k : string) : nat :=
  productOf (map (fun f => occurrences f c k) files).



(** The group of a dataset for a key, or the single placeholder. *)
Definition groupOrPlaceholder (file : ParsedFile) (c : JoinCandidate) (k : string)
  : list (option object) :=
  match group file c k with
  | [] => [None]
  | g => map Some g
  end.

(** Nested iteration: the first list varies slowest, the last fastest. *)
Fixpoint nestedProduct {A : Type} (arrays : list (list A)) : list (list A) :=
  match arrays with
  | [] => [[]]
  | first :: others =>
      flat_map (fun x => map (cons x) (nestedProduct others)) first
  end.

Definition isRow (r : option object) : bool :=
  match r with Some _ => true | None => false end.

(** Step 3 of 4.4: which combinations a join type keeps. *)
Definition keepCombination (joinType : JoinType) (combo : list (option object))
  : bool :=
  match joinType with
  | INNER => forallb isRow combo
  | LEFT => match combo with r0 :: _ => isRow r0 | [] => false end
  | _ => true
  end.

(** The surviving combinations of one key. *)
Definition combinations (files : list ParsedFile) (c : JoinCandidate)
           (joinType : JoinType) (k : string) : list (list (option object)) :=
  filter (keepCombination joinType)
         (nestedProduct (map (fun f => groupOrPlaceholder f c k) files)).

(** The file without the rows that cannot be joined. *)
Definition dropUnjoinable (c : JoinCandidate) (file : ParsedFile) : ParsedFile :=
  {| name := name file;
     headers := headers file;
     previewData := previewData file;
     data := filter (fun row => negb (String.eqb (rowKey file c row) "")) (data file);
     rowCount := rowCount file;
     isJoined := isJoined file |}.

(** The names of the datasets that gave a row to a combination, and of
    those that did not. *)
Definition foundNames (files : list ParsedFile) (combo : list (option object))
  : list string :=
  map (fun rf => name (snd rf)) (filter (fun rf => isRow (fst rf)) (combine combo files)).

Definition missingNames (files : list ParsedFile) (combo : list (option object))
  : list string :=
  map (fun rf => name (snd rf))
      (filter (fun rf => negb (isRow (fst rf))) (combine combo files)).

(** A scalar: string, number, boolean or null. *)
Definition isScalar (v : value) : bool :=
  match v with
  | VNull | VBool _ | VNum _ | VStr _ => true
  | VUndefined | VArr _ | VObj _ => false
  end.

End Reference.

Import Reference.

(* ================================================================== *)
(** * Auxiliary definitions of the proofs *)
(* ================================================================== *)

(** The sizes of the groups of an index: what [getKeyCountsFromFile]
    counts. *)
Definition groupSizes (m : jsmap (list object)) : jsmap nat :=
  map (fun kg => (fst kg, length (snd kg))) m.

(** One step of the indexing loop of [joinDatasets], on a row of key [val]. *)
Definition pushRow (m : jsmap (list object)) (val : string) (row : object)
  : jsmap (list object) :=
  let m1 := if map_has m val then m else map_set m val [] in
  match map_get m1 val with
  | Some rows => map_set m1 val (rows ++ [row])
  | None => m1
  end.

(** The indexing loop over rows whose keys are given by [kf]. *)
Definition indexBy (kf : object -> string) (rows : list object)
           (m : jsmap (list object)) : jsmap (list object) :=
  fold_left (fun m row => if String.eqb (kf row) "" then m else pushRow m (kf row) row)
            rows m.

(** The counting loop over rows whose keys are given by [kf]. *)
Definition countBy (kf : object -> string) (rows : list object)
           (counts : jsmap nat) : jsmap nat :=
  fold_left (fun counts row =>
               if String.eqb (kf row) "" then counts
               else map_set counts (kf row) (orZero (map_get counts (kf row)) + 1))
            rows counts.

(** The contribution of one key to the length of [joinDatasets]. *)
Definition keyRows (joinType : JoinType) (counts : list nat) : nat :=
  match joinType with
  | INNER => productOf counts
  | LEFT => if 0 <? nth 0 counts 0
            then nth 0 counts 0 * productOf (map orOne (tl counts)) else 0
  | _ => productOf (map orOne counts)
  end.

(** The records [joinDatasets] pushes while it visits one key. *)
Definition recordsOfKey (files : list ParsedFile) (c : JoinCandidate)
           (joinType : JoinType) (key : string) : list object :=
  let rows := rowsPerFile (map (fun file => fileDataMap file c) files) key in
  let hasData := hasDataInFile rows in
  if JoinType_eqb joinType INNER && existsb negb hasData then []
  else if JoinType_eqb joinType LEFT && negb (nth 0 hasData false) then []
  else map (joinedRowOf files c joinType key) (cartesian rows).


(** A string without a space. *)
Fixpoint spaceFree (s : string) : bool :=
  match s with
  | EmptyString => true
  | String ch rest => negb (Ascii.eqb ch " ") && spaceFree rest
  end.

(** The flag column of a dataset. *)
Definition foundColumn (f : ParsedFile) : string :=
  ("_Found_In_" ++ cleanFileName (name f))%string.

(** One step of [combo.forEach]. *)
Definition scanStep (c : JoinCandidate)
           (st : object * list string * list string)
           (rf : option object * ParsedFile) : object * list string * list string :=
  let '(joinedRow, foundInFiles, missingInFiles) := st in
  let '(row, file) := rf in
  match row with
  | Some r => (addColumns file c r joinedRow, foundInFiles ++ [name file], missingInFiles)
  | None => (joinedRow, foundInFiles, missingInFiles ++ [name file])
  end.

(** A string without white space. *)
Fixpoint noWhiteSpace (s : string) : bool :=
  match s with
  | EmptyString => true
  | String ch rest => negb (isWhiteSpace ch) && noWhiteSpace rest
  end.

(** Small workspaces on which the theorems are tried. *)
Module Examples.

Definition candidateOn (key : string) (mappings : list (string * string))
  : JoinCandidate :=
  {| keyName := key;
     confidenceScore := 90;
     reasoning := "";
     columnMappings :=
       map (fun m => {| fileName := fst m; columnName := snd m |}) mappings |}.



(** Two datasets whose names differ in the extension only. *)
Definition csvFile : ParsedFile :=
  Demo.mkFile "data.csv"
    [[("id", VNum 1); ("x", VStr "from csv")]; [("id", VNum 3); ("x", VStr "csv only")]].

Definition xlsxFile : ParsedFile :=
  Demo.mkFile "data.xlsx"
    [[("id", VNum 1); ("x", VStr "from xlsx")]; [("id", VNum 2); ("x", VStr "xlsx only")]].

Definition twinCandidate : JoinCandidate :=
  candidateOn "ID" [("data.csv", "id"); ("data.xlsx", "id")].






(** A dataset that the demo candidate does not map. *)
Definition notesFile : ParsedFile :=
  Demo.mkFile "notes.csv" [[("text", VStr "hello")]].

End Examples.

(** The match status of 4.4, by precedence. *)
Definition statusOf (found missing : list string) (total : nat) : string :=
  match missing with
  | [] => "Matched (All Files)"
  | _ :: _ =>
      match found with
      | [only] => ("Unique to " ++ only)%string
      | _ => ("Partial Match (Found in " ++ decimal_nat (length found) ++ "/"
                ++ decimal_nat total ++ ")")%string
      end
  end.

(* ================================================================== *)
(** * The rest of the services and their callers *)
(* ================================================================== *)

(** ** [services/dataService.ts]: [downloadCSV] *)

Module CsvExport.

(** The flattening of one value in [downloadCSV]: as in
    [createJoinedFile], but [null] and [undefined] become the empty
    string. *)
Definition flatValue (val : value) : value :=
  if isNullish val then VStr ""
  else if typeof_object val then
    match val with
    | VArr items =>
        VStr (array_join " | "
                (map (fun v => if typeof_object v then JSON_stringify v
                               else VStr (toString v)) items))
    | _ => JSON_stringify val
    end
  else val.

Definition flatRow (row : object) : object :=
  fold_left (fun newRow k => obj_set newRow k (flatValue (obj_get row k)))
            (obj_keys row) [].

(** [flatData], the rows that [downloadCSV] hands to the sheet writer. *)
Definition flatData (rows : list object) : list object := map flatRow rows.

(** A cell of the sheet: a string, a number or a boolean. *)
Definition isCell (v : value) : bool :=
  match v with
  | VStr _ | VNum _ | VBool _ => true
  | _ => false
  end.

End CsvExport.

(** ** [services/geminiService.ts]: prompts, plan and chat *)

Module GeminiPrompts.

(** The summary of a file that goes into a prompt. *)
Module FileSummary.
Record t : Type := {
  fileName : string;
  headers : list string;
  sampleData : list object
}.
End FileSummary.

(** [prepareFileSummary]: the headers and the first three preview rows,
    each cut down to the header columns. *)
Definition prepareFileSummary (file : ParsedFile) : FileSummary.t :=
  {| FileSummary.fileName := name file;
     FileSummary.headers := headers file;
     FileSummary.sampleData :=
       map (fun row =>
              fold_left (fun simplifiedRow header =>
                           obj_set simplifiedRow header (obj_get row header))
                        (headers file) [])
           (firstn 3 (previewData file)) |}.

(** [types.ts]: [ChatMessage] and the part of [AIContext] the chat reads. *)
Inductive Role : Type := user | model.

Record ChatMessage : Type := {
  role : Role;
  text : string;
  timestamp : nat
}.

Record AIContext : Type := {
  userDescription : option string;
  chatHistory : list ChatMessage
}.

(** [!apiKey]. *)
Definition noApiKey (apiKey : option string) : bool :=
  match apiKey with
  | None => true
  | Some k => String.eqb k ""
  end.

(** [text || fallback]. *)
Definition orText (t : option string) (fallback : string) : string :=
  match t with
  | None => fallback
  | Some s => if String.eqb s "" then fallback else s
  end.

(** [generateMergePlan], given the API key of the environment and the
    completion of the awaited [generateContent] call. *)
Definition generateMergePlan (apiKey : option string)
           (generateContent : completion (option string)) : completion string :=
  let body :=
    if noApiKey apiKey then Thrown "API Key not found"
    else
      match generateContent with
      | Thrown e => Thrown e
      | Returned responseText => Returned (orText responseText "Could not generate plan.")
      end in
  match body with
  | Returned plan => Returned plan
  | Thrown _ => Returned "Error generating plan. Please write your instructions manually."
  end.

(** [arr.slice(-n)]: the last [n] elements, all of them when there are
    fewer. *)
Definition sliceLast {A : Type} (n : nat) (l : list A) : list A :=
  skipn (length l - n) l.

(** The [contents] of the chat request: the last ten messages of the
    history, then the user's message. *)
Definition chatContents (aiContext : option AIContext) (userMessage : string)
  : list (Role * string) :=
  let context :=
    match aiContext with
    | Some ctx => ctx
    | None => {| userDescription := None; chatHistory := [] |}
    end in
  let recentHistory :=
    map (fun msg => (role msg, text msg)) (sliceLast 10 (chatHistory context)) in
  recentHistory ++ [(user, userMessage)].

(** [chatWithDataset], given the API key and the [generateContent] call as
    a function of the [contents] it is sent. *)
Definition chatWithDataset (apiKey : option string)
           (generateContent : list (Role * string) -> completion (option string))
           (aiContext : option AIContext) (userMessage : string)
  : completion string :=
  let body :=
    if noApiKey apiKey then Thrown "API Key not found"
    else
      match generateContent (chatContents aiContext userMessage) with
      | Thrown e => Thrown e
      | Returned responseText =>
          Returned (orText responseText "I couldn't generate a response.")
      end in
  match body with
  | Returned reply => Returned reply
  | Thrown _ => Returned "Sorry, I encountered an error while analyzing the data."
  end.

End GeminiPrompts.

(** ** [components/InsightsModal.tsx]: sending a chat message *)

Module InsightsModal.
Import GeminiPrompts.

(** [handleSendMessage]: the context of the file after the message was
    sent and answered.  [now1] and [now2] are the two readings of the
    clock. *)
Definition handleSendMessage (apiKey : option string)
           (generateContent : list (Role * string) -> completion (option string))
           (now1 now2 : nat) (description input : string)
           (aiContext : option AIContext) : option AIContext :=
  if String.eqb (trim input) "" then aiContext
  else
    let userMsg := {| role := user; text := input; timestamp := now1 |} in
    let updatedHistory :=
      match aiContext with
      | Some ctx => chatHistory ctx
      | None => []
      end ++ [userMsg] in
    let updated :=
      {| userDescription := Some description; chatHistory := updatedHistory |} in
    match chatWithDataset apiKey generateContent (Some updated) (text userMsg) with
    | Returned responseText =>
        let botMsg := {| role := model; text := responseText; timestamp := now2 |} in
        Some {| userDescription := userDescription updated;
                chatHistory := updatedHistory ++ [botMsg] |}
    | Thrown _ => Some updated
    end.

End InsightsModal.

(** ** [App.tsx]: the files of the workspace *)

Module App.

Inductive AnalysisStatus : Type := IDLE | ANALYZING | COMPLETED | ERROR.


(** The state of the component; the handlers below are run on the state
    that was rendered last. *)
Record State : Type := {
  files : list ParsedFile;
  analysisStatus : AnalysisStatus;
  candidates : list JoinCandidate;
  error : option string
}.


(** [handleSaveJoinedFile]. *)
Definition handleSaveJoinedFile (st : State) (newFile : ParsedFile) : State :=
  {| files := files st ++ [newFile];
     analysisStatus := analysisStatus st;
     candidates := candidates st;
     error := error st |}.

End App.

(** ** [components/AnalysisResult.tsx]: downloading and saving a join *)

Module AnalysisResult.

(** [keyName.replace(/\s+/g, '_')]: every run of white space becomes one
    underscore.  [inRun] tells that the run has been replaced already. *)
Fixpoint replaceWhiteSpaceRuns (inRun : bool) (s : string) : string :=
  match s with
  | EmptyString => EmptyString
  | String ch rest =>
      if isWhiteSpace ch then
        if inRun then replaceWhiteSpaceRuns true rest
        else String "_" (replaceWhiteSpaceRuns true rest)
      else String ch (replaceWhiteSpaceRuns false rest)
  end.

Definition joinTypeName (joinType : JoinType) : string :=
  match joinType with
  | INNER => "inner"
  | LEFT => "left"
  | ADDITIVE => "additive"
  | _ => "full"
  end.

Definition fileNamePrefix (joinType : JoinType) : string :=
  match joinType with
  | AI_SEMANTIC => "ai_semantic_merge"
  | _ => ("merged_" ++ joinTypeName joinType)%string
  end.

(** [fileName] of [handleAction]. *)
Definition fileName (joinType : JoinType) (candidate : JoinCandidate) : string :=
  (fileNamePrefix joinType ++ "_"
     ++ replaceWhiteSpaceRuns false (keyName candidate))%string.

Section HandleAction.
Variable JSON_parse : string -> completion value.
Variable apiKey : option string.
Variable generateContent : completion (option string).

(** [joinedData]: the semantic merge or the engine's join. *)
Definition joinedData (files : list ParsedFile) (candidate : JoinCandidate)
           (joinType : JoinType) : completion (list object) :=
  match joinType with
  | AI_SEMANTIC => generateSemanticMerge JSON_parse apiKey generateContent
  | _ => Returned (joinDatasets files candidate joinType)
  end.

(** [handleAction('save')]: the file handed to [onSaveJoinedFile], none
    when the join failed and the alert was shown. *)
Definition handleSave (files : list ParsedFile) (candidate : JoinCandidate)
           (joinType : JoinType) : option ParsedFile :=
  match joinedData files candidate joinType with
  | Returned rows =>
      Some (createJoinedFile rows (fileName joinType candidate ++ " (Joined)")%string)
  | Thrown _ => None
  end.

End HandleAction.

End AnalysisResult.

(** ** Auxiliary definitions for the properties of these functions *)

(** Only letters, digits and underscores. *)
Fixpoint allClean (s : string) : bool :=
  match s with
  | EmptyString => true
  | String ch rest => (isAlnum ch || Ascii.eqb ch "_") && allClean rest
  end.

(** A string without a dot. *)
Fixpoint dotFree (s : string) : bool :=
  match s with
  | EmptyString => true
  | String ch rest => negb (Ascii.eqb ch ".") && dotFree rest
  end.

(** The sanitizing of a row whose property names are distinct. *)
Definition sanitizedEntries (row : object) : object :=
  map (fun kv => (fst kv, sanitizeValue (snd kv))) row.

(** The rows of a file that can be joined. *)
Definition joinableRows (file : ParsedFile) (c : JoinCandidate) : list object :=
  filter (fun row => negb (String.eqb (rowKey file c row) "")) (data file).


(* ================================================================== *)
(** * Facts on maps, sets and lists *)
(* ================================================================== *)

Lemma eqb_neq_false (a b : string) : a <> b -> String.eqb a b = false.
Proof. intro H. now apply String.eqb_neq. Qed.

Section MapFacts.
Context {V : Type}.
Implicit Types (m : jsmap V) (k : string) (v : V).

Lemma map_get_set_same m k v : map_get (map_set m k v) k = Some v.
Proof.
  induction m as [|[k' v'] m IH]; simpl.
  - now rewrite String.eqb_refl.
  - destruct (String.eqb k' k) eqn:E; simpl.
    + now rewrite String.eqb_refl.
    + now rewrite E.
Qed.

Lemma map_get_set_other m k k' v :
  k <> k' -> map_get (map_set m k v) k' = map_get m k'.
Proof.
  intro N. induction m as [|[k0 v0] m IH]; simpl.
  - now rewrite eqb_neq_false.
  - destruct (String.eqb k0 k) eqn:E; simpl.
    + apply String.eqb_eq in E; subst k0. now rewrite !eqb_neq_false.
    + now rewrite IH.
Qed.

Lemma map_set_set m k v w : map_set (map_set m k v) k w = map_set m k w.
Proof.
  induction m as [|[k0 v0] m IH]; simpl.
  - now rewrite String.eqb_refl.
  - destruct (String.eqb k0 k) eqn:E; simpl.
    + now rewrite String.eqb_refl.
    + now rewrite E, IH.
Qed.

Lemma map_has_set_has m k : map_has m k = set_has (map_keys m) k.
Proof.
  unfold map_has, set_has.
  induction m as [|[k0 v0] m IH]; simpl; [reflexivity|].
  rewrite (String.eqb_sym k k0).
  destruct (String.eqb k0 k); simpl; [reflexivity|exact IH].
Qed.

Lemma map_keys_set m k v : map_keys (map_set m k v) = set_add (map_keys m) k.
Proof.
  unfold set_add, set_has.
  induction m as [|[k0 v0] m IH]; simpl; [reflexivity|].
  rewrite (String.eqb_sym k k0).
  destruct (String.eqb k0 k) eqn:E; simpl.
  - apply String.eqb_eq in E. now subst.
  - rewrite IH. unfold map_keys. now destruct (existsb (String.eqb k) (map fst m)).
Qed.

Lemma map_get_none_keys m k : map_get m k = None <-> ~ In k (map_keys m).
Proof.
  induction m as [|[k0 v0] m IH]; simpl.
  - tauto.
  - destruct (String.eqb k0 k) eqn:E.
    + apply String.eqb_eq in E. split; [discriminate|]. intros H; exfalso; auto.
    + apply String.eqb_neq in E. rewrite IH. tauto.
Qed.

Lemma map_get_in m k v : NoDup (map_keys m) -> In (k, v) m -> map_get m k = Some v.
Proof.
  induction m as [|[k0 v0] m IH]; simpl; intros ND H; [contradiction|].
  inversion ND as [|? ? Hn ND']; subst.
  destruct H as [H|H].
  - inversion H; subst. now rewrite String.eqb_refl.
  - destruct (String.eqb k0 k) eqn:E.
    + apply String.eqb_eq in E; subst k0. exfalso. apply Hn.
      change k with (fst (k, v)). now apply in_map.
    + now apply IH.
Qed.

Lemma map_get_some_in m k v : map_get m k = Some v -> In (k, v) m.
Proof.
  induction m as [|[k0 v0] m IH]; simpl; [discriminate|].
  destruct (String.eqb k0 k) eqn:E.
  - apply String.eqb_eq in E; subst. intros [= ->]. now left.
  - intro H. right. now apply IH.
Qed.
End MapFacts.

Lemma set_has_true (s : list string) (k : string) : set_has s k = true <-> In k s.
Proof.
  unfold set_has. rewrite existsb_exists. split.
  - intros [x [Hin He]]. apply String.eqb_eq in He. now subst.
  - intro H. exists k. split; [assumption|apply String.eqb_refl].
Qed.

Lemma set_has_false (s : list string) (k : string) : set_has s k = false <-> ~ In k s.
Proof.
  rewrite <- set_has_true. destruct (set_has s k); split; intros; congruence.
Qed.

(** ** First occurrences *)

Lemma filter_filter {A : Type} (p q : A -> bool) (l : list A) :
  filter p (filter q l) = filter (fun x => q x && p x) l.
Proof.
  induction l as [|a l IH]; simpl; [reflexivity|].
  destruct (q a); simpl; [|exact IH].
  destruct (p a); now rewrite IH.
Qed.

Lemma filter_all {A : Type} (p : A -> bool) (l : list A) :
  (forall x, In x l -> p x = true) -> filter p l = l.
Proof.
  induction l as [|a l IH]; simpl; intro H; [reflexivity|].
  rewrite (H a (or_introl eq_refl)). f_equal. apply IH. auto.
Qed.

Lemma filter_none {A : Type} (p : A -> bool) (l : list A) :
  (forall x, In x l -> p x = false) -> filter p l = [].
Proof.
  induction l as [|a l IH]; simpl; intro H; [reflexivity|].
  rewrite (H a (or_introl eq_refl)). apply IH. auto.
Qed.

Lemma firstOccurrences_In (l : list string) (x : string) :
  In x (firstOccurrences l) <-> In x l.
Proof.
  induction l as [|a l IH]; simpl; [tauto|].
  rewrite filter_In, IH, negb_true_iff, String.eqb_neq.
  destruct (string_dec a x); [subst; tauto|].
  split; [tauto|]. intros [H|H]; [tauto|]. right. split; congruence.
Qed.

Lemma NoDup_filter_str (p : string -> bool) (l : list string) :
  NoDup l -> NoDup (filter p l).
Proof.
  induction 1 as [|a l Hn ND IH]; simpl; [constructor|].
  destruct (p a); [constructor|]; auto.
  rewrite filter_In. tauto.
Qed.

Lemma firstOccurrences_NoDup (l : list string) : NoDup (firstOccurrences l).
Proof.
  induction l as [|a l IH]; simpl; constructor.
  - rewrite filter_In, String.eqb_refl. simpl. intros [_ H]. discriminate.
  - now apply NoDup_filter_str.
Qed.

Lemma firstOccurrences_fixed (l : list string) : NoDup l -> firstOccurrences l = l.
Proof.
  induction 1 as [|a l Hn ND IH]; simpl; [reflexivity|].
  rewrite IH. f_equal. apply filter_all.
  intros x Hx. apply negb_true_iff, String.eqb_neq. congruence.
Qed.

(** What the [Set] holds after the elements of [l] were added to [acc]. *)
Lemma fold_set_add (l acc : list string) :
  fold_left set_add l acc
  = acc ++ filter (fun y => negb (set_has acc y)) (firstOccurrences l).
Proof.
  revert acc. induction l as [|a l IH]; intro acc; simpl.
  - now rewrite app_nil_r.
  - rewrite IH. unfold set_add at 1 2.
    destruct (set_has acc a) eqn:E; simpl.
    + f_equal. rewrite filter_filter. apply filter_ext. intro y.
      destruct (String.eqb y a) eqn:Ey; simpl; [|reflexivity].
      apply String.eqb_eq in Ey. subst. now rewrite E.
    + rewrite <- app_assoc. simpl. f_equal. f_equal.
      rewrite filter_filter. apply filter_ext. intro y.
      unfold set_has. rewrite existsb_app. simpl. rewrite orb_false_r.
      rewrite negb_orb. apply andb_comm.
Qed.

Lemma fold_set_add_nil (l : list string) :
  fold_left set_add l [] = firstOccurrences l.
Proof.
  rewrite fold_set_add. simpl. apply filter_all. reflexivity.
Qed.

Lemma fold_set_add_firstOccurrences (l acc : list string) :
  fold_left set_add (firstOccurrences l) acc = fold_left set_add l acc.
Proof.
  rewrite !fold_set_add.
  now rewrite (firstOccurrences_fixed _ (firstOccurrences_NoDup l)).
Qed.

(* ================================================================== *)
(** * The index of a file *)
(* ================================================================== *)

Lemma fold_left_ext {A B : Type} (f g : A -> B -> A) (l : list B) (a : A) :
  (forall x y, f x y = g x y) -> fold_left f l a = fold_left g l a.
Proof.
  intro H. revert a. induction l as [|b l IH]; intro a; simpl; [reflexivity|].
  now rewrite H, IH.
Qed.


Lemma fileDataMap_indexBy (f : ParsedFile) (c : JoinCandidate) :
  fileDataMap f c = indexBy (rowKey f c) (data f) [].
Proof.
  unfold fileDataMap, indexBy, rowKey.
  destruct (getKeyColumnForFile f c) as [keyCol|].
  - destruct (String.eqb keyCol "").
    + simpl. induction (data f) as [|r l IH]; simpl; [reflexivity|exact IH].
    + apply fold_left_ext. intros m row. reflexivity.
  - simpl. induction (data f) as [|r l IH]; simpl; [reflexivity|exact IH].
Qed.

Lemma getKeyCounts_countBy (f : ParsedFile) (c : JoinCandidate) :
  getKeyCountsFromFile f c = countBy (rowKey f c) (data f) [].
Proof.
  unfold getKeyCountsFromFile, countBy, rowKey.
  destruct (getKeyColumnForFile f c) as [keyCol|].
  - destruct (String.eqb keyCol "").
    + simpl. induction (data f) as [|r l IH]; simpl; [reflexivity|exact IH].
    + apply fold_left_ext. intros m row. reflexivity.
  - simpl. induction (data f) as [|r l IH]; simpl; [reflexivity|exact IH].
Qed.

(** Pushing a row extends the group of its key, or opens it. *)
Lemma pushRow_eq (m : jsmap (list object)) (k : string) (row : object) :
  pushRow m k row
  = map_set m k (match map_get m k with Some g => g | None => [] end ++ [row]).
Proof.
  unfold pushRow, map_has.
  destruct (map_get m k) as [g|] eqn:E.
  - now rewrite E.
  - rewrite map_get_set_same. simpl. apply map_set_set.
Qed.

Lemma groupSizes_get (m : jsmap (list object)) (k : string) :
  map_get (groupSizes m) k = option_map (@length object) (map_get m k).
Proof.
  induction m as [|[k0 g0] m IH]; simpl; [reflexivity|].
  destruct (String.eqb k0 k); [reflexivity|exact IH].
Qed.

Lemma groupSizes_set (m : jsmap (list object)) (k : string) (g : list object) :
  groupSizes (map_set m k g) = map_set (groupSizes m) k (length g).
Proof.
  induction m as [|[k0 g0] m IH]; simpl; [reflexivity|].
  destruct (String.eqb k0 k); simpl; [reflexivity|now rewrite IH].
Qed.

Lemma groupSizes_keys (m : jsmap (list object)) : map_keys (groupSizes m) = map_keys m.
Proof. unfold groupSizes, map_keys. rewrite map_map. reflexivity. Qed.

(** The counting loop counts what the indexing loop collects. *)
Lemma countBy_groupSizes (kf : object -> string) (rows : list object)
      (m : jsmap (list object)) :
  countBy kf rows (groupSizes m) = groupSizes (indexBy kf rows m).
Proof.
  revert m. induction rows as [|r rows IH]; intro m; simpl; [reflexivity|].
  unfold countBy, indexBy in *. simpl.
  destruct (String.eqb (kf r) ""); [apply IH|].
  rewrite <- IH. f_equal.
  rewrite pushRow_eq, groupSizes_set, groupSizes_get. f_equal.
  rewrite length_app. simpl. now destruct (map_get m (kf r)).
Qed.

Lemma getKeyCounts_groupSizes (f : ParsedFile) (c : JoinCandidate) :
  getKeyCountsFromFile f c = groupSizes (fileDataMap f c).
Proof.
  rewrite getKeyCounts_countBy, fileDataMap_indexBy.
  exact (countBy_groupSizes (rowKey f c) (data f) []).
Qed.

Lemma indexBy_keys (kf : object -> string) (rows : list object)
      (m : jsmap (list object)) :
  map_keys (indexBy kf rows m)
  = fold_left set_add
      (filter (fun k => negb (String.eqb k "")) (map kf rows)) (map_keys m).
Proof.
  revert m. induction rows as [|r rows IH]; intro m; simpl; [reflexivity|].
  unfold indexBy in *. simpl.
  destruct (String.eqb (kf r) ""); simpl; [apply IH|].
  rewrite IH, pushRow_eq, map_keys_set. reflexivity.
Qed.

Lemma indexBy_get (kf : object -> string) (rows : list object)
      (m : jsmap (list object)) (k : string) :
  k <> "" ->
  map_get (indexBy kf rows m) k
  = match map_get m k, filter (fun r => String.eqb (kf r) k) rows with
    | None, [] => None
    | None, g => Some g
    | Some g0, g => Some (g0 ++ g)
    end.
Proof.
  intro Hk. revert m. induction rows as [|r rows IH]; intro m.
  - simpl. destruct (map_get m k); [now rewrite app_nil_r|reflexivity].
  - unfold indexBy in *. simpl.
    destruct (String.eqb (kf r) "") eqn:E0.
    + apply String.eqb_eq in E0. rewrite IH.
      rewrite E0, (eqb_neq_false "" k) by congruence. reflexivity.
    + rewrite IH, pushRow_eq.
      destruct (String.eqb (kf r) k) eqn:E.
      * apply String.eqb_eq in E. rewrite E, map_get_set_same.
        destruct (map_get m k) as [g0|]; simpl.
        -- now rewrite <- app_assoc.
        -- reflexivity.
      * apply String.eqb_neq in E. rewrite map_get_set_other by assumption.
        reflexivity.
Qed.

Lemma indexBy_get_empty (kf : object -> string) (rows : list object)
      (m : jsmap (list object)) :
  map_get m "" = None -> map_get (indexBy kf rows m) "" = None.
Proof.
  revert m. induction rows as [|r rows IH]; intros m H; simpl; [exact H|].
  unfold indexBy in *. simpl.
  destruct (String.eqb (kf r) "") eqn:E0; [now apply IH|].
  apply IH. rewrite pushRow_eq, map_get_set_other; [exact H|].
  now apply String.eqb_neq.
Qed.

(** The index of a file holds, under each key, the key group. *)
Lemma fileDataMap_get (f : ParsedFile) (c : JoinCandidate) (k : string) :
  k <> "" ->
  map_get (fileDataMap f c) k
  = match group f c k with [] => None | g => Some g end.
Proof.
  intro Hk. rewrite fileDataMap_indexBy, indexBy_get by assumption. reflexivity.
Qed.

Lemma fileDataMap_get_empty (f : ParsedFile) (c : JoinCandidate) :
  map_get (fileDataMap f c) "" = None.
Proof. rewrite fileDataMap_indexBy. now apply indexBy_get_empty. Qed.

Lemma fileDataMap_keys (f : ParsedFile) (c : JoinCandidate) :
  map_keys (fileDataMap f c) = firstOccurrences (keyStream f c).
Proof.
  rewrite fileDataMap_indexBy, indexBy_keys. simpl. apply fold_set_add_nil.
Qed.

Lemma getKeyCounts_keys (f : ParsedFile) (c : JoinCandidate) :
  map_keys (getKeyCountsFromFile f c) = firstOccurrences (keyStream f c).
Proof. now rewrite getKeyCounts_groupSizes, groupSizes_keys, fileDataMap_keys. Qed.

(** [counts.get(k) || 0] is the number of rows that carry [k]. *)
Lemma getKeyCounts_get (f : ParsedFile) (c : JoinCandidate) (k : string) :
  k <> "" -> orZero (map_get (getKeyCountsFromFile f c) k) = occurrences f c k.
Proof.
  intro Hk. rewrite getKeyCounts_groupSizes, groupSizes_get, fileDataMap_get by assumption.
  unfold occurrences. now destruct (group f c k).
Qed.

(** ** The union of the keys *)

Lemma unionKeys_fold {V : Type} (maps : list (jsmap V)) (acc : list string) :
  fold_left (fun allKeys m => fold_left set_add (map_keys m) allKeys) maps acc
  = fold_left set_add (flat_map map_keys maps) acc.
Proof.
  revert acc. induction maps as [|m maps IH]; intro acc; simpl; [reflexivity|].
  now rewrite IH, fold_left_app.
Qed.

Lemma fold_set_add_streams (streams : list (list string)) (acc : list string) :
  fold_left set_add (flat_map firstOccurrences streams) acc
  = fold_left set_add (concat streams) acc.
Proof.
  revert acc. induction streams as [|s streams IH]; intro acc; simpl; [reflexivity|].
  now rewrite !fold_left_app, fold_set_add_firstOccurrences, IH.
Qed.

Lemma unionKeys_fileDataMaps (files : list ParsedFile) (c : JoinCandidate) :
  unionKeys (map (fun f => fileDataMap f c) files) = allKeys files c.
Proof.
  unfold unionKeys, allKeys. rewrite unionKeys_fold, flat_map_concat_map, map_map.
  rewrite (map_ext _ (fun f => firstOccurrences (keyStream f c)))
    by (intro; apply fileDataMap_keys).
  rewrite <- (map_map (fun f => keyStream f c) firstOccurrences).
  rewrite <- flat_map_concat_map, fold_set_add_streams, fold_set_add_nil.
  now rewrite flat_map_concat_map.
Qed.

Lemma unionKeys_keyCounts (files : list ParsedFile) (c : JoinCandidate) :
  unionKeys (map (fun f => getKeyCountsFromFile f c) files) = allKeys files c.
Proof.
  rewrite <- unionKeys_fileDataMaps. unfold unionKeys.
  rewrite !unionKeys_fold, !flat_map_concat_map, !map_map. do 2 f_equal.
  apply map_ext. intro f. now rewrite getKeyCounts_groupSizes, groupSizes_keys.
Qed.

Lemma allKeys_nonempty (files : list ParsedFile) (c : JoinCandidate) (k : string) :
  In k (allKeys files c) -> k <> "".
Proof.
  unfold allKeys. rewrite firstOccurrences_In, in_flat_map.
  intros [f [_ H]]. unfold keyStream in H. apply filter_In in H.
  destruct H as [_ H]. now apply negb_true_iff, String.eqb_neq in H.
Qed.

(* ================================================================== *)
(** * Counting the rows of a join *)
(* ================================================================== *)

Lemma fold_left_mul {A : Type} (f : A -> nat) (l : list A) (n : nat) :
  fold_left (fun acc c => acc * f c) l n = n * productOf (map f l).
Proof.
  revert n. induction l as [|a l IH]; intro n; simpl; [lia|].
  rewrite IH. lia.
Qed.

Lemma fold_left_mul_id (l : list nat) (n : nat) :
  fold_left (fun acc c => acc * c) l n = n * productOf l.
Proof.
  rewrite (fold_left_mul (fun c => c)). now rewrite map_id.
Qed.

Lemma length_flat_map_const {A B : Type} (f : A -> list B) (l : list A) (n : nat) :
  (forall a, length (f a) = n) -> length (flat_map f l) = length l * n.
Proof.
  intro H. induction l as [|a l IH]; simpl; [reflexivity|].
  now rewrite length_app, H, IH.
Qed.

Lemma cartesian_fold_length {A : Type} (arrays : list (list A)) (acc : list (list A)) :
  length (fold_left (fun acc curr => flat_map (fun a => map (fun c => a ++ [c]) curr) acc)
                    arrays acc)
  = length acc * productOf (map (@length A) arrays).
Proof.
  revert acc. induction arrays as [|curr arrays IH]; intro acc; simpl; [lia|].
  rewrite IH, (length_flat_map_const _ _ (length curr)).
  - lia.
  - intro a. apply length_map.
Qed.

Lemma cartesian_length {A : Type} (arrays : list (list A)) :
  length (cartesian arrays) = productOf (map (@length A) arrays).
Proof. unfold cartesian. rewrite cartesian_fold_length. simpl. lia. Qed.


Lemma orOne_pos (n : nat) : 0 < n -> orOne n = n.
Proof. unfold orOne. destruct n; simpl; [lia|reflexivity]. Qed.

(** ** What [joinDatasets] reads from the indexes, for a key *)

Lemma rowsPerFile_groups (files : list ParsedFile) (c : JoinCandidate) (k : string) :
  k <> "" ->
  rowsPerFile (map (fun f => fileDataMap f c) files) k
  = map (fun f => groupOrPlaceholder f c k) files.
Proof.
  intro Hk. unfold rowsPerFile. rewrite map_map. apply map_ext. intro f.
  rewrite fileDataMap_get by assumption. unfold groupOrPlaceholder.
  destruct (group f c k); reflexivity.
Qed.

Lemma groupOrPlaceholder_length (f : ParsedFile) (c : JoinCandidate) (k : string) :
  length (groupOrPlaceholder f c k) = orOne (occurrences f c k).
Proof.
  unfold groupOrPlaceholder, occurrences.
  destruct (group f c k); simpl; [reflexivity|now rewrite length_map].
Qed.

Lemma hasDataInFile_groups (files : list ParsedFile) (c : JoinCandidate) (k : string) :
  hasDataInFile (map (fun f => groupOrPlaceholder f c k) files)
  = map (fun f => 0 <? occurrences f c k) files.
Proof.
  unfold hasDataInFile. rewrite map_map. apply map_ext. intro f.
  unfold groupOrPlaceholder, occurrences. destruct (group f c k); reflexivity.
Qed.

Lemma keyCounts_occurrences (files : list ParsedFile) (c : JoinCandidate) (k : string) :
  k <> "" ->
  map (fun m => orZero (map_get m k)) (map (fun f => getKeyCountsFromFile f c) files)
  = map (fun f => occurrences f c k) files.
Proof.
  intro Hk. rewrite map_map. apply map_ext. intro f. now apply getKeyCounts_get.
Qed.

Lemma product_zero (l : list nat) : In 0 l -> productOf l = 0.
Proof.
  induction l as [|a l IH]; simpl; [contradiction|].
  intros [->|H]; [reflexivity|]. rewrite IH by assumption. lia.
Qed.

Lemma product_orOne_pos (l : list nat) :
  ~ In 0 l -> productOf (map orOne l) = productOf l.
Proof.
  induction l as [|a l IH]; simpl; intro H; [reflexivity|].
  rewrite IH by tauto. rewrite orOne_pos; [reflexivity|].
  destruct a; [exfalso; auto|lia].
Qed.

Lemma existsb_negb_ltb (l : list nat) :
  existsb negb (map (fun n => 0 <? n) l) = true <-> In 0 l.
Proof.
  rewrite existsb_exists. split.
  - intros [b [Hb Hn]]. apply in_map_iff in Hb. destruct Hb as [n [<- Hin]].
    apply negb_true_iff, Nat.ltb_ge in Hn. now replace n with 0 in Hin by lia.
  - intro H. exists false. split; [|reflexivity].
    apply in_map_iff. exists 0. now split.
Qed.

(** The joined rows, key after key. *)
Lemma push_fold {A B : Type} (F : A -> B) (l : list A) (result : list B) :
  fold_left (fun result x => result ++ [F x]) l result = result ++ map F l.
Proof.
  revert result. induction l as [|a l IH]; intro result; simpl.
  - now rewrite app_nil_r.
  - now rewrite IH, <- app_assoc.
Qed.

Lemma joinDatasets_by_key (files : list ParsedFile) (c : JoinCandidate)
      (joinType : JoinType) :
  joinDatasets files c joinType
  = flat_map (recordsOfKey files c joinType) (allKeys files c).
Proof.
  unfold joinDatasets. rewrite unionKeys_fileDataMaps.
  generalize (allKeys files c) as keys. intro keys.
  enough (H : forall result,
             fold_left
               (fun result key =>
                  let rows := rowsPerFile (map (fun file => fileDataMap file c) files) key in
                  let hasData := hasDataInFile rows in
                  if JoinType_eqb joinType INNER && existsb negb hasData then result
                  else if JoinType_eqb joinType LEFT && negb (nth 0 hasData false)
                       then result
                       else fold_left
                              (fun result combo =>
                                 result ++ [joinedRowOf files c joinType key combo])
                              (cartesian rows) result)
               keys result
             = result ++ flat_map (recordsOfKey files c joinType) keys)
    by (exact (H [])).
  induction keys as [|k keys IH]; intro result; simpl.
  - now rewrite app_nil_r.
  - rewrite IH. unfold recordsOfKey at 2.
    destruct (JoinType_eqb joinType INNER
              && existsb negb (hasDataInFile
                   (rowsPerFile (map (fun file => fileDataMap file c) files) k))).
    + reflexivity.
    + destruct (JoinType_eqb joinType LEFT
                && negb (nth 0 (hasDataInFile
                     (rowsPerFile (map (fun file => fileDataMap file c) files) k)) false)).
      * reflexivity.
      * now rewrite push_fold, <- app_assoc.
Qed.

Lemma map_nth0 {A : Type} (f : A -> nat) (l : list A) (g : A -> bool) :
  (forall a, g a = (0 <? f a)) ->
  nth 0 (map g l) false = (0 <? nth 0 (map f l) 0).
Proof. intro H. destruct l; simpl; [reflexivity|apply H]. Qed.

(** The number of records of one key. *)
Lemma recordsOfKey_length (files : list ParsedFile) (c : JoinCandidate)
      (joinType : JoinType) (k : string) :
  k <> "" ->
  length (recordsOfKey files c joinType k)
  = keyRows joinType (map (fun f => occurrences f c k) files).
Proof.
  intro Hk. unfold recordsOfKey.
  rewrite rowsPerFile_groups, hasDataInFile_groups by assumption.
  rewrite <- (map_map (fun f => occurrences f c k) (fun n => 0 <? n)).
  assert (Hlen : length (cartesian (map (fun f => groupOrPlaceholder f c k) files))
                 = productOf (map orOne (map (fun f => occurrences f c k) files))).
  { rewrite cartesian_length, !map_map. f_equal. apply map_ext. intro f.
    apply groupOrPlaceholder_length. }
  set (counts := map (fun f => occurrences f c k) files) in *.
  assert (Hnth : nth 0 (map (fun n => 0 <? n) counts) false = (0 <? nth 0 counts 0))
    by (destruct counts; reflexivity).
  destruct joinType; simpl; rewrite ?length_map, ?Hlen; try reflexivity.
  - (* INNER *)
    destruct (existsb negb (map (fun n => 0 <? n) counts)) eqn:E.
    + apply existsb_negb_ltb in E. simpl. now rewrite product_zero.
    + rewrite length_map, Hlen. apply product_orOne_pos.
      intro H. apply existsb_negb_ltb in H. congruence.
  - (* LEFT *)
    rewrite Hnth. destruct (0 <? nth 0 counts 0) eqn:E; simpl; [|reflexivity].
    rewrite length_map, Hlen. destruct counts as [|c0 rest]; simpl in *.
    + discriminate.
    + apply Nat.ltb_lt in E. now rewrite orOne_pos.
Qed.

Lemma length_flat_map_sum {A B : Type} (f : A -> list B) (l : list A) :
  length (flat_map f l) = sumOf (map (fun a => length (f a)) l).
Proof.
  induction l as [|a l IH]; simpl; [reflexivity|].
  now rewrite length_app, IH.
Qed.

(** The length of the join is the sum of the per-key contributions. *)
Lemma joinDatasets_length (files : list ParsedFile) (c : JoinCandidate)
      (joinType : JoinType) :
  length (joinDatasets files c joinType)
  = sumOf (map (fun k => keyRows joinType (map (fun f => occurrences f c k) files))
             (allKeys files c)).
Proof.
  rewrite joinDatasets_by_key, length_flat_map_sum. f_equal.
  apply map_ext_in. intros k Hk. apply recordsOfKey_length.
  now apply allKeys_nonempty in Hk.
Qed.

(** ** The estimate, key after key *)

Lemma stats_fold (fileKeyCounts : list (jsmap nat)) (keys : list string) (i o l : nat) :
  let counts := fun key => map (fun m => orZero (map_get m key)) fileKeyCounts in
  fold_left
    (fun '(innerCount, outerCount, leftCount) key =>
       let counts := map (fun m => orZero (map_get m key)) fileKeyCounts in
       let product := fold_left (fun acc c => acc * c) counts 1 in
       let outerProduct := fold_left (fun acc c => acc * orOne c) counts 1 in
       let leftCount' :=
         if 0 <? nth 0 counts 0 then
           let leftProduct := fold_left (fun acc c => acc * orOne c) (tl counts) 1 in
           leftCount + nth 0 counts 0 * leftProduct
         else leftCount in
       (innerCount + product, outerCount + outerProduct, leftCount'))
    keys (i, o, l)
  = (i + sumOf (map (fun k => keyRows INNER (counts k)) keys),
     o + sumOf (map (fun k => keyRows OUTER (counts k)) keys),
     l + sumOf (map (fun k => keyRows LEFT (counts k)) keys)).
Proof.
  intro counts. revert i o l.
  induction keys as [|k keys IH]; intros i o l; simpl.
  - now rewrite !Nat.add_0_r.
  - rewrite IH. fold (counts k).
    rewrite fold_left_mul_id, !(fold_left_mul orOne). unfold keyRows.
    destruct (0 <? nth 0 (counts k) 0);
      repeat (apply pair_equal_spec; split); lia.
Qed.

Lemma calculateJoinStats_sums (files : list ParsedFile) (c : JoinCandidate)
      (joinType : JoinType) :
  joinType <> AI_SEMANTIC ->
  stat (calculateJoinStats files c) joinType
  = sumOf (map (fun k => keyRows joinType (map (fun f => occurrences f c k) files))
             (allKeys files c)).
Proof.
  intro Hjt. unfold calculateJoinStats.
  destruct files as [|f0 files].
  - simpl. now destruct joinType.
  - remember (f0 :: files) as fs eqn:Efs.
    replace (length (map (fun f => getKeyCountsFromFile f c) fs) =? 0) with false
      by (subst fs; reflexivity).
    rewrite unionKeys_keyCounts, stats_fold. simpl.
    assert (Hext : forall jt,
      map (fun k => keyRows jt (map (fun m => orZero (map_get m k))
                                    (map (fun f => getKeyCountsFromFile f c) fs)))
          (allKeys fs c)
      = map (fun k => keyRows jt (map (fun f => occurrences f c k) fs)) (allKeys fs c)).
    { intro jt. apply map_ext_in. intros k Hk.
      rewrite keyCounts_occurrences; [reflexivity|].
      now apply allKeys_nonempty in Hk. }
    destruct joinType; simpl;
      try (f_equal;
           first [exact (Hext INNER) | exact (Hext OUTER) | exact (Hext LEFT)]).
    congruence.
Qed.

Lemma filter_length_pos {A : Type} (p : A -> bool) (l : list A) :
  0 < length (filter p l) <-> exists x, In x l /\ p x = true.
Proof.
  induction l as [|a l IH]; simpl.
  - split; [lia|]. intros [x [[] _]].
  - destruct (p a) eqn:E; simpl.
    + split; [|lia]. intros _. exists a. auto.
    + rewrite IH. split; intros [x [Hin Hp]].
      * exists x. auto.
      * destruct Hin as [->|Hin]; [congruence|]. exists x. auto.
Qed.

Lemma keyStream_In (f : ParsedFile) (c : JoinCandidate) (k : string) :
  In k (keyStream f c) <-> k <> "" /\ 0 < occurrences f c k.
Proof.
  unfold keyStream, occurrences, group.
  rewrite filter_In, in_map_iff, negb_true_iff, String.eqb_neq, filter_length_pos.
  split.
  - intros [[row [Hk Hin]] Hne]. split; [assumption|].
    exists row. split; [assumption|]. now apply String.eqb_eq.
  - intros [Hne [row [Hin Hk]]]. split; [|assumption].
    exists row. split; [|assumption]. now apply String.eqb_eq.
Qed.

Lemma allKeys_In (files : list ParsedFile) (c : JoinCandidate) (k : string) :
  In k (allKeys files c)
  <-> k <> "" /\ exists f, In f files /\ 0 < occurrences f c k.
Proof.
  unfold allKeys. rewrite firstOccurrences_In, in_flat_map. split.
  - intros [f [Hf Hk]]. apply keyStream_In in Hk. destruct Hk as [Hne Hpos].
    split; [assumption|]. now exists f.
  - intros [Hne [f [Hf Hpos]]]. exists f. split; [assumption|].
    apply keyStream_In. now split.
Qed.

Lemma keyRows_inner (files : list ParsedFile) (c : JoinCandidate) (k : string) :
  keyRows INNER (map (fun f => occurrences f c k) files) = innerTerm files c k.
Proof. reflexivity. Qed.



(* ================================================================== *)
(** * The estimator and the executor *)
(* ================================================================== *)



(* ================================================================== *)
(** * The order of the joined rows *)
(* ================================================================== *)

Lemma flat_map_flat_map {A B C : Type} (f : A -> list B) (g : B -> list C) (l : list A) :
  flat_map g (flat_map f l) = flat_map (fun x => flat_map g (f x)) l.
Proof.
  induction l as [|a l IH]; simpl; [reflexivity|].
  now rewrite flat_map_app, IH.
Qed.

Lemma flat_map_ext_in {A B : Type} (f g : A -> list B) (l : list A) :
  (forall a, In a l -> f a = g a) -> flat_map f l = flat_map g l.
Proof.
  induction l as [|a l IH]; simpl; intro H; [reflexivity|].
  rewrite (H a (or_introl eq_refl)), IH; [reflexivity|]. auto.
Qed.

Lemma extend_combinations {A : Type} (a : list A) (curr : list A) (rest : list (list A)) :
  flat_map (fun a' => map (app a') rest) (map (fun c => a ++ [c]) curr)
  = map (app a) (flat_map (fun x => map (cons x) rest) curr).
Proof.
  induction curr as [|x curr IH]; simpl; [reflexivity|].
  rewrite IH, map_app, map_map. f_equal.
  apply map_ext. intro y. now rewrite <- app_assoc.
Qed.

(** The [reduce] of [cartesian] extends every partial combination by the
    nested product of the arrays that remain. *)
Lemma cartesian_fold {A : Type} (arrays : list (list A)) (acc : list (list A)) :
  fold_left (fun acc curr => flat_map (fun a => map (fun c => a ++ [c]) curr) acc)
            arrays acc
  = flat_map (fun a => map (app a) (nestedProduct arrays)) acc.
Proof.
  revert acc. induction arrays as [|curr arrays IH]; intro acc; simpl.
  - induction acc as [|a acc IHa]; simpl; [reflexivity|].
    now rewrite app_nil_r, <- IHa.
  - rewrite IH, flat_map_flat_map. apply flat_map_ext. intro a.
    apply extend_combinations.
Qed.

Lemma cartesian_nestedProduct {A : Type} (arrays : list (list A)) :
  cartesian arrays = nestedProduct arrays.
Proof.
  unfold cartesian. rewrite cartesian_fold. simpl.
  rewrite app_nil_r. apply map_id.
Qed.

Lemma nestedProduct_In {A : Type} (arrays : list (list A)) (combo : list A) :
  In combo (nestedProduct arrays) <-> Forall2 (fun x a => In x a) combo arrays.
Proof.
  revert combo. induction arrays as [|first others IH]; intro combo; simpl.
  - split.
    + intros [<-|[]]. constructor.
    + intro H. inversion H. now left.
  - rewrite in_flat_map. split.
    + intros [x [Hx Hc]]. apply in_map_iff in Hc. destruct Hc as [rest [<- Hr]].
      constructor; [assumption|]. now apply IH.
    + intro H. inversion H as [|x a rest l Hx Hr]; subst.
      exists x. split; [assumption|]. apply in_map. now apply IH.
Qed.

Lemma groupOrPlaceholder_rows (f : ParsedFile) (c : JoinCandidate) (k : string)
      (r : option object) :
  0 < occurrences f c k -> In r (groupOrPlaceholder f c k) -> isRow r = true.
Proof.
  unfold occurrences, groupOrPlaceholder. destruct (group f c k) as [|g0 g]; simpl.
  - lia.
  - intros _ [<-|H]; [reflexivity|]. apply in_map_iff in H.
    now destruct H as [x [<- _]].
Qed.

Lemma groupOrPlaceholder_none (f : ParsedFile) (c : JoinCandidate) (k : string)
      (r : option object) :
  occurrences f c k = 0 -> In r (groupOrPlaceholder f c k) -> r = None.
Proof.
  unfold occurrences, groupOrPlaceholder. destruct (group f c k) as [|g0 g]; simpl.
  - intros _ [<-|[]]. reflexivity.
  - discriminate.
Qed.

Lemma combination_all_rows (files : list ParsedFile) (c : JoinCandidate) (k : string)
      (combo : list (option object)) :
  Forall2 (fun x a => In x a) combo (map (fun f => groupOrPlaceholder f c k) files) ->
  forallb isRow combo = negb (existsb negb (map (fun f => 0 <? occurrences f c k) files)).
Proof.
  revert combo. induction files as [|f files IH]; intros combo H; simpl in *.
  - inversion H. reflexivity.
  - inversion H as [|x a rest l Hx Hr]; subst. simpl. rewrite (IH _ Hr).
    destruct (0 <? occurrences f c k) eqn:E; simpl.
    + apply Nat.ltb_lt in E. now rewrite (groupOrPlaceholder_rows f c k x).
    + apply Nat.ltb_ge in E.
      rewrite (groupOrPlaceholder_none f c k x); [reflexivity|lia|assumption].
Qed.

Lemma combination_first_row (files : list ParsedFile) (c : JoinCandidate) (k : string)
      (combo : list (option object)) :
  Forall2 (fun x a => In x a) combo (map (fun f => groupOrPlaceholder f c k) files) ->
  match combo with r0 :: _ => isRow r0 | [] => false end
  = nth 0 (map (fun f => 0 <? occurrences f c k) files) false.
Proof.
  destruct files as [|f files]; intro H; simpl in *.
  - inversion H. reflexivity.
  - inversion H as [|x a rest l Hx Hr]; subst.
    destruct (0 <? occurrences f c k) eqn:E.
    + apply Nat.ltb_lt in E. now apply (groupOrPlaceholder_rows f c k x).
    + apply Nat.ltb_ge in E.
      rewrite (groupOrPlaceholder_none f c k x); [reflexivity|lia|assumption].
Qed.

(** The test that [joinDatasets] makes once per key keeps or drops the
    combinations of the key as the per-combination filter of 4.4 does. *)
Lemma recordsOfKey_combinations (files : list ParsedFile) (c : JoinCandidate)
      (joinType : JoinType) (k : string) :
  k <> "" ->
  recordsOfKey files c joinType k
  = map (joinedRowOf files c joinType k) (combinations files c joinType k).
Proof.
  intro Hk. unfold recordsOfKey, combinations.
  rewrite rowsPerFile_groups, hasDataInFile_groups, cartesian_nestedProduct by assumption.
  set (arrays := map (fun f => groupOrPlaceholder f c k) files).
  set (has := map (fun f => 0 <? occurrences f c k) files).
  assert (Hall : forall combo, In combo (nestedProduct arrays) ->
                               forallb isRow combo = negb (existsb negb has)).
  { intros combo H. apply combination_all_rows. now apply nestedProduct_In. }
  assert (Hfirst : forall combo, In combo (nestedProduct arrays) ->
                     match combo with r0 :: _ => isRow r0 | [] => false end
                     = nth 0 has false).
  { intros combo H. apply combination_first_row. now apply nestedProduct_In. }
  destruct joinType; simpl.
  - destruct (existsb negb has); simpl.
    + now rewrite filter_none.
    + now rewrite filter_all.
  - now rewrite filter_all.
  - destruct (nth 0 has false); simpl.
    + now rewrite filter_all.
    + now rewrite filter_none.
  - now rewrite filter_all.
  - now rewrite filter_all.
Qed.

(** Every record of the join is the record of a combination that its join
    type keeps, for one of the keys. *)
Lemma joinDatasets_In (files : list ParsedFile) (c : JoinCandidate)
      (joinType : JoinType) (r : object) :
  In r (joinDatasets files c joinType)
  <-> exists k combo,
      In k (allKeys files c)
      /\ In combo (combinations files c joinType k)
      /\ r = joinedRowOf files c joinType k combo.
Proof.
  rewrite joinDatasets_by_key, in_flat_map. split.
  - intros [k [Hk Hr]].
    rewrite recordsOfKey_combinations in Hr by (now apply allKeys_nonempty in Hk).
    apply in_map_iff in Hr. destruct Hr as [combo [<- Hc]].
    exists k, combo. auto.
  - intros [k [combo [Hk [Hc ->]]]]. exists k. split; [assumption|].
    rewrite recordsOfKey_combinations by (now apply allKeys_nonempty in Hk).
    now apply in_map.
Qed.

(** C7.  [joinDatasets] returns the rows key by key, the keys in the order
    of their first occurrence when the datasets are scanned in the given
    order; for one key, the combinations that the join type keeps, in the
    order of the nested product, where the rows of dataset 0 vary slowest
    and those of the last dataset fastest; each dataset's rows for the key
    are its key group, in the dataset's own row order.  The helper
    [cartesian] computes that nested product. *)
Theorem joinDatasets_row_order :
  (forall (files : list ParsedFile) (c : JoinCandidate) (joinType : JoinType),
      joinDatasets files c joinType
      = flat_map
          (fun k =>
             map (joinedRowOf files c joinType k)
                 (filter (keepCombination joinType)
                         (nestedProduct
                            (map (fun f =>
                                    match filter (fun row =>
                                                    String.eqb (rowKey f c row) k)
                                                 (data f) with
                                    | [] => [None]
                                    | g => map Some g
                                    end) files))))
          (firstOccurrences (flat_map (fun f => keyStream f c) files)))
  /\ (forall (A : Type) (arrays : list (list A)),
         cartesian arrays = nestedProduct arrays)
  /\ (forall (A : Type) (a b x y : A),
         cartesian [[a; b]; [x; y]] = [[a; x]; [a; y]; [b; x]; [b; y]]).
Proof.
  split; [|split].
  - intros files c joinType. rewrite joinDatasets_by_key.
    apply flat_map_ext_in. intros k Hk.
    apply recordsOfKey_combinations. now apply allKeys_nonempty in Hk.
  - intros A arrays. apply cartesian_nestedProduct.
  - reflexivity.
Qed.

(* ================================================================== *)
(** * Rows that cannot be joined *)
(* ================================================================== *)



Lemma obj_get_missing (o : object) (k : string) :
  ~ In k (obj_keys o) -> obj_get o k = VUndefined.
Proof.
  induction o as [|[k0 v0] o IH]; simpl; intro H; [reflexivity|].
  destruct (String.eqb k0 k) eqn:E.
  - apply String.eqb_eq in E. exfalso. auto.
  - apply IH. tauto.
Qed.

Lemma getKeyColumn_dropUnjoinable (f : ParsedFile) (c : JoinCandidate) :
  getKeyColumnForFile (dropUnjoinable c f) c = getKeyColumnForFile f c.
Proof. reflexivity. Qed.














(* ================================================================== *)
(** * A dataset without a mapped key column *)
(* ================================================================== *)

Section Unmapped.
Variables (file : ParsedFile) (c : JoinCandidate).
Hypothesis unmapped : getKeyColumnForFile file c = None.

Lemma unmapped_fileDataMap : fileDataMap file c = [].
Proof. unfold fileDataMap. now rewrite unmapped. Qed.

Lemma unmapped_keyCounts : getKeyCountsFromFile file c = [].
Proof. unfold getKeyCountsFromFile. now rewrite unmapped. Qed.

Lemma unmapped_rowKey (row : object) : rowKey file c row = "".
Proof. unfold rowKey. now rewrite unmapped. Qed.

Lemma unmapped_keyStream : keyStream file c = [].
Proof.
  unfold keyStream. apply filter_none. intros k Hk.
  apply in_map_iff in Hk. destruct Hk as [row [<- _]].
  now rewrite unmapped_rowKey.
Qed.

Lemma unmapped_occurrences (k : string) : k <> "" -> occurrences file c k = 0.
Proof.
  intro Hk. unfold occurrences, group. rewrite filter_none; [reflexivity|].
  intros row _. rewrite unmapped_rowKey. now apply eqb_neq_false.
Qed.

Lemma unmapped_allKeys (pre post : list ParsedFile) :
  allKeys (pre ++ file :: post) c = allKeys (pre ++ post) c.
Proof.
  unfold allKeys. rewrite !flat_map_app. simpl. now rewrite unmapped_keyStream.
Qed.

Lemma unmapped_rowsPerFile (pre post : list ParsedFile) (k : string) :
  rowsPerFile (map (fun f => fileDataMap f c) (pre ++ file :: post)) k
  = rowsPerFile (map (fun f => fileDataMap f c) pre) k
    ++ [None] :: rowsPerFile (map (fun f => fileDataMap f c) post) k.
Proof.
  unfold rowsPerFile. rewrite !map_app. simpl. now rewrite unmapped_fileDataMap.
Qed.
End Unmapped.

Lemma Forall2_nth_error_r {A B : Type} (R : A -> B -> Prop) (l : list A) (l' : list B)
      (i : nat) (b : B) :
  Forall2 R l l' -> nth_error l' i = Some b ->
  exists a, nth_error l i = Some a /\ R a b.
Proof.
  intro H. revert i. induction H as [|x y l l' HR H IH]; intros [|i]; simpl;
    try discriminate.
  - intros [= ->]. now exists x.
  - apply IH.
Qed.

Lemma nth_error_middle {A : Type} (l1 l2 : list A) (a : A) :
  nth_error (l1 ++ a :: l2) (length l1) = Some a.
Proof. induction l1 as [|x l1 IH]; simpl; [reflexivity|exact IH]. Qed.

Lemma sum_zero {A : Type} (f : A -> nat) (l : list A) :
  (forall a, In a l -> f a = 0) -> sumOf (map f l) = 0.
Proof.
  induction l as [|a l IH]; simpl; intro H; [reflexivity|].
  rewrite (H a (or_introl eq_refl)), IH; auto.
Qed.

Lemma combine_app_same {A B : Type} (l1 l2 : list A) (l1' l2' : list B) :
  length l1 = length l1' ->
  combine (l1 ++ l2) (l1' ++ l2') = combine l1 l1' ++ combine l2 l2'.
Proof.
  revert l1'. induction l1 as [|a l1 IH]; intros [|b l1']; simpl; try discriminate.
  - reflexivity.
  - intros [= H]. now rewrite IH.
Qed.

Lemma map_flat_map {A B C : Type} (g : B -> C) (f : A -> list B) (l : list A) :
  map g (flat_map f l) = flat_map (fun a => map g (f a)) l.
Proof.
  induction l as [|a l IH]; simpl; [reflexivity|].
  now rewrite map_app, IH.
Qed.

Lemma flat_map_map {A B C : Type} (g : A -> B) (f : B -> list C) (l : list A) :
  flat_map f (map g l) = flat_map (fun a => f (g a)) l.
Proof.
  induction l as [|a l IH]; simpl; [reflexivity|]. now rewrite IH.
Qed.

(** The combinations over arrays with a lone placeholder in the middle. *)
Lemma cartesian_placeholder {A : Type} (R1 R2 : list (list A)) (x : A) :
  cartesian (R1 ++ [x] :: R2)
  = flat_map (fun a => map (app (a ++ [x])) (nestedProduct R2)) (cartesian R1)
  /\ cartesian (R1 ++ R2)
     = flat_map (fun a => map (app a) (nestedProduct R2)) (cartesian R1).
Proof.
  unfold cartesian. rewrite !fold_left_app. simpl. rewrite !cartesian_fold.
  split; [|reflexivity].
  set (l := flat_map _ [[]]). clearbody l.
  rewrite flat_map_flat_map. apply flat_map_ext. intro a. simpl.
  now rewrite app_nil_r.
Qed.

(** The row under construction does not depend on the two name lists. *)
Lemma scan_row_independent (c : JoinCandidate)
      (l : list (option object * ParsedFile)) (jr : object)
      (f1 m1 f2 m2 : list string) :
  fst (fst (fold_left
              (fun '(joinedRow, foundInFiles, missingInFiles) '(row, file) =>
                 match row with
                 | Some r => (addColumns file c r joinedRow,
                              foundInFiles ++ [name file], missingInFiles)
                 | None => (joinedRow, foundInFiles, missingInFiles ++ [name file])
                 end) l (jr, f1, m1)))
  = fst (fst (fold_left
              (fun '(joinedRow, foundInFiles, missingInFiles) '(row, file) =>
                 match row with
                 | Some r => (addColumns file c r joinedRow,
                              foundInFiles ++ [name file], missingInFiles)
                 | None => (joinedRow, foundInFiles, missingInFiles ++ [name file])
                 end) l (jr, f2, m2))).
Proof.
  revert jr f1 m1 f2 m2. induction l as [|[row file] l IH]; intros; simpl.
  - reflexivity.
  - destruct row; apply IH.
Qed.

Lemma joinedRowOf_row (files : list ParsedFile) (c : JoinCandidate)
      (joinType : JoinType) (k : string) (combo : list (option object)) :
  joinType <> ADDITIVE ->
  joinedRowOf files c joinType k combo = fst (fst (scanCombo files c k combo)).
Proof.
  intro H. unfold joinedRowOf.
  destruct (scanCombo files c k combo) as [[jr fnd] mis].
  destruct joinType; simpl; congruence.
Qed.

(** Without the additive flags, a placeholder leaves no trace in the
    record. *)
Lemma joinedRowOf_placeholder (pre post : list ParsedFile) (file : ParsedFile)
      (c : JoinCandidate) (joinType : JoinType) (k : string)
      (a b : list (option object)) :
  joinType <> ADDITIVE ->
  length a = length pre ->
  joinedRowOf (pre ++ file :: post) c joinType k ((a ++ [None]) ++ b)
  = joinedRowOf (pre ++ post) c joinType k (a ++ b).
Proof.
  intros Hjt Hlen. rewrite !joinedRowOf_row by assumption. unfold scanCombo.
  rewrite <- app_assoc. simpl.
  rewrite !combine_app_same by assumption. simpl. rewrite !fold_left_app. simpl.
  destruct (fold_left _ (combine a pre) _) as [[jr fnd] mis].
  apply scan_row_independent.
Qed.

Lemma cartesian_combo_length {A : Type} (arrays : list (list A)) (combo : list A) :
  In combo (cartesian arrays) -> length combo = length arrays.
Proof.
  rewrite cartesian_nestedProduct, nestedProduct_In. intro H.
  now apply Forall2_length in H.
Qed.

Lemma rowsPerFile_length (maps : list (jsmap (list object))) (k : string) :
  length (rowsPerFile maps k) = length maps.
Proof. unfold rowsPerFile. apply length_map. Qed.

Lemma unmapped_records (pre post : list ParsedFile) (file : ParsedFile)
      (c : JoinCandidate) (joinType : JoinType) (k : string) :
  getKeyColumnForFile file c = None ->
  joinType = OUTER \/ (joinType = LEFT /\ pre <> []) ->
  recordsOfKey (pre ++ file :: post) c joinType k
  = recordsOfKey (pre ++ post) c joinType k.
Proof.
  intros Hun Hjt. unfold recordsOfKey.
  rewrite (unmapped_rowsPerFile file c Hun pre post k).
  replace (rowsPerFile (map (fun f => fileDataMap f c) (pre ++ post)) k)
    with (rowsPerFile (map (fun f => fileDataMap f c) pre) k
          ++ rowsPerFile (map (fun f => fileDataMap f c) post) k)
    by (unfold rowsPerFile; now rewrite !map_app).
  set (R1 := rowsPerFile (map (fun f => fileDataMap f c) pre) k).
  set (R2 := rowsPerFile (map (fun f => fileDataMap f c) post) k).
  assert (Hrec : map (joinedRowOf (pre ++ file :: post) c joinType k)
                     (cartesian (R1 ++ [None] :: R2))
                 = map (joinedRowOf (pre ++ post) c joinType k) (cartesian (R1 ++ R2))).
  { destruct (cartesian_placeholder R1 R2 None) as [-> ->].
    rewrite !map_flat_map. apply flat_map_ext_in. intros a Ha.
    rewrite !map_map. apply map_ext. intro b.
    apply joinedRowOf_placeholder.
    - destruct Hjt as [->|[-> _]]; discriminate.
    - apply cartesian_combo_length in Ha. subst R1.
      now rewrite rowsPerFile_length, length_map in Ha. }
  destruct Hjt as [->|[-> Hpre]]; simpl.
  - exact Hrec.
  - assert (Hhd : nth 0 (hasDataInFile (R1 ++ [None] :: R2)) false
                  = nth 0 (hasDataInFile (R1 ++ R2)) false).
    { subst R1. destruct pre as [|p pre]; [congruence|]. reflexivity. }
    rewrite Hhd. destruct (nth 0 (hasDataInFile (R1 ++ R2)) false); simpl.
    + exact Hrec.
    + reflexivity.
Qed.

Lemma unmapped_joinDatasets (pre post : list ParsedFile) (file : ParsedFile)
      (c : JoinCandidate) (joinType : JoinType) :
  getKeyColumnForFile file c = None ->
  joinType = OUTER \/ (joinType = LEFT /\ pre <> []) ->
  joinDatasets (pre ++ file :: post) c joinType = joinDatasets (pre ++ post) c joinType.
Proof.
  intros Hun Hjt. rewrite !joinDatasets_by_key, (unmapped_allKeys file c Hun).
  apply flat_map_ext. intro k. now apply unmapped_records.
Qed.

(** C8.  A dataset for which the candidate maps no column is indexed as the
    empty map by both functions, which are total: its count is 0 and its
    factor 1 for every key, the OUTER and ADDITIVE estimates are those of
    the other datasets alone, and every combination has the placeholder at
    its position.  INNER then returns no row; LEFT returns no row when the
    dataset is dataset 0; OUTER, and LEFT when it is a later dataset, return
    the rows they return without it. *)
Theorem unmapped_dataset_is_always_missing
        (pre post : list ParsedFile) (file : ParsedFile) (c : JoinCandidate) :
  getKeyColumnForFile file c = None ->
  let files := pre ++ file :: post in
  fileDataMap file c = []
  /\ getKeyCountsFromFile file c = []
  /\ (forall k, orZero (map_get (getKeyCountsFromFile file c) k) = 0
                /\ orOne (orZero (map_get (getKeyCountsFromFile file c) k)) = 1)
  /\ statOUTER (calculateJoinStats files c)
     = statOUTER (calculateJoinStats (pre ++ post) c)
  /\ statADDITIVE (calculateJoinStats files c)
     = statADDITIVE (calculateJoinStats (pre ++ post) c)
  /\ (forall k combo,
         In combo (cartesian (rowsPerFile (map (fun f => fileDataMap f c) files) k)) ->
         nth_error combo (length pre) = Some None)
  /\ joinDatasets files c INNER = []
  /\ statINNER (calculateJoinStats files c) = 0
  /\ (pre = [] -> joinDatasets files c LEFT = []
                  /\ statLEFT (calculateJoinStats files c) = 0)
  /\ (pre <> [] -> joinDatasets files c LEFT = joinDatasets (pre ++ post) c LEFT)
  /\ joinDatasets files c OUTER = joinDatasets (pre ++ post) c OUTER.
Proof.
  intros Hun files.
  assert (Hinner : length (joinDatasets files c INNER) = 0).
  { rewrite joinDatasets_length. apply sum_zero. intros k Hk.
    apply allKeys_nonempty in Hk. simpl. apply product_zero.
    apply in_map_iff. exists file. split.
    - now apply unmapped_occurrences.
    - subst files. apply in_or_app. right. now left. }
  assert (Hleft : pre = [] -> length (joinDatasets files c LEFT) = 0).
  { intros ->. rewrite joinDatasets_length. apply sum_zero. intros k Hk.
    apply allKeys_nonempty in Hk. subst files. simpl.
    now rewrite (unmapped_occurrences file c Hun k Hk). }
  assert (Houter : joinDatasets files c OUTER = joinDatasets (pre ++ post) c OUTER)
    by (apply unmapped_joinDatasets; auto).
  assert (Hso : stat (calculateJoinStats files c) OUTER
                = stat (calculateJoinStats (pre ++ post) c) OUTER).
  { rewrite !calculateJoinStats_sums by discriminate.
    rewrite <- !joinDatasets_length. now rewrite Houter. }
  assert (Hsa : stat (calculateJoinStats files c) ADDITIVE
                = stat (calculateJoinStats (pre ++ post) c) ADDITIVE).
  { rewrite !calculateJoinStats_sums by discriminate.
    rewrite !calculateJoinStats_sums in Hso by discriminate. exact Hso. }
  repeat match goal with |- _ /\ _ => split end.
  - now apply unmapped_fileDataMap.
  - now apply unmapped_keyCounts.
  - intro k. rewrite unmapped_keyCounts by assumption. split; reflexivity.
  - exact Hso.
  - exact Hsa.
  - intros k combo Hin.
    rewrite cartesian_nestedProduct, nestedProduct_In in Hin.
    subst files. rewrite (unmapped_rowsPerFile file c Hun) in Hin.
    destruct (Forall2_nth_error_r _ _ _ (length pre) [None] Hin) as [x [Hx Hx']].
    + replace (length pre)
        with (length (rowsPerFile (map (fun f => fileDataMap f c) pre) k))
        by (now rewrite rowsPerFile_length, length_map).
      apply nth_error_middle.
    + destruct Hx' as [<-|[]]. exact Hx.
  - now apply length_zero_iff_nil.
  - change (stat (calculateJoinStats files c) INNER = 0).
    rewrite calculateJoinStats_sums, <- joinDatasets_length by discriminate.
    exact Hinner.
  - intro Hpre. split; [apply length_zero_iff_nil; auto|].
    change (stat (calculateJoinStats files c) LEFT = 0).
    rewrite calculateJoinStats_sums, <- joinDatasets_length by discriminate. auto.
  - intro Hpre. apply unmapped_joinDatasets; auto.
  - exact Houter.
Qed.

(* ================================================================== *)
(** * The columns of a joined row *)
(* ================================================================== *)

Lemma obj_get_set_same (o : object) (k : string) (v : value) :
  obj_get (obj_set o k v) k = v.
Proof.
  induction o as [|[k0 v0] o IH]; simpl.
  - now rewrite String.eqb_refl.
  - destruct (String.eqb k0 k) eqn:E; simpl.
    + now rewrite String.eqb_refl.
    + now rewrite E.
Qed.

Lemma obj_get_set_other (o : object) (k k' : string) (v : value) :
  k <> k' -> obj_get (obj_set o k v) k' = obj_get o k'.
Proof.
  intro N. induction o as [|[k0 v0] o IH]; simpl.
  - now rewrite eqb_neq_false.
  - destruct (String.eqb k0 k) eqn:E; simpl.
    + apply String.eqb_eq in E; subst k0. now rewrite !eqb_neq_false.
    + now rewrite IH.
Qed.

Lemma obj_set_In (o : object) (k : string) (x : value) (col : string) (v : value) :
  In (col, v) (obj_set o k x) -> (col, v) = (k, x) \/ In (col, v) o.
Proof.
  induction o as [|[k0 v0] o IH]; simpl.
  - intros [H|[]]. now left.
  - destruct (String.eqb k0 k); simpl.
    + intros [H|H]; [now left|right; now right].
    + intros [H|H]; [right; now left|].
      destruct (IH H) as [H'|H']; [now left|right; now right].
Qed.

(** Setting columns one after the other, a column outside of them keeps
    its value. *)
Lemma fold_set_other {A : Type} (kf : A -> string) (vf : A -> value)
      (l : list A) (o : object) (k : string) :
  (forall a, In a l -> kf a <> k) ->
  obj_get (fold_left (fun o a => obj_set o (kf a) (vf a)) l o) k = obj_get o k.
Proof.
  revert o. induction l as [|a l IH]; intros o H; simpl; [reflexivity|].
  rewrite IH by (intros; apply H; now right).
  apply obj_get_set_other. apply H. now left.
Qed.

(** With pairwise distinct columns, each holds the value set for it. *)
Lemma fold_set_same {A : Type} (kf : A -> string) (vf : A -> value)
      (l : list A) (o : object) (a : A) :
  NoDup (map kf l) -> In a l ->
  obj_get (fold_left (fun o a => obj_set o (kf a) (vf a)) l o) (kf a) = vf a.
Proof.
  revert o. induction l as [|b l IH]; intros o ND Hin; simpl; [contradiction|].
  inversion ND as [|? ? Hn ND']; subst.
  destruct Hin as [->|Hin].
  - rewrite fold_set_other; [apply obj_get_set_same|].
    intros x Hx E. apply Hn. rewrite <- E. now apply in_map.
  - now apply IH.
Qed.


Lemma scanCombo_fold (files : list ParsedFile) (c : JoinCandidate) (k : string)
      (combo : list (option object)) :
  scanCombo files c k combo
  = fold_left (scanStep c) (combine combo files) ([(keyName c, VStr k)], [], []).
Proof.
  unfold scanCombo. apply fold_left_ext.
  intros [[jr fnd] mis] [row file]. reflexivity.
Qed.


Lemma found_column_not_status (s : string) : ("_Found_In_" ++ s)%string <> "_Join_Status".
Proof. simpl. intro H. discriminate H. Qed.

Lemma addFlags_fold (files : list ParsedFile) (fnd mis : list string) (jr : object) :
  addFlags files fnd mis jr
  = fold_left (fun o f => obj_set o (foundColumn f)
                            (VStr (if includes fnd (name f) then "TRUE" else "FALSE")))
              files
              (obj_set jr "_Join_Status" (VStr (joinStatus fnd mis (length files)))).
Proof. reflexivity. Qed.


(* ================================================================== *)
(** * Normalized keys *)
(* ================================================================== *)















(* ================================================================== *)
(** * The additive flags *)
(* ================================================================== *)

Lemma joinStatus_statusOf (fnd mis : list string) (total : nat) :
  joinStatus fnd mis total = statusOf fnd mis total.
Proof.
  unfold joinStatus, statusOf. destruct mis as [|m mis]; simpl; [reflexivity|].
  destruct fnd as [|a [|b fnd]]; reflexivity.
Qed.

(** What [combo.forEach] leaves in [foundInFiles] and [missingInFiles]. *)
Lemma scan_names (c : JoinCandidate) (l : list (option object * ParsedFile))
      (jr : object) (fnd mis : list string) :
  snd (fst (fold_left (scanStep c) l (jr, fnd, mis)))
  = fnd ++ map (fun rf => name (snd rf)) (filter (fun rf => isRow (fst rf)) l)
  /\ snd (fold_left (scanStep c) l (jr, fnd, mis))
     = mis ++ map (fun rf => name (snd rf))
                  (filter (fun rf => negb (isRow (fst rf))) l).
Proof.
  revert jr fnd mis. induction l as [|[r f] l IH]; intros jr fnd mis; simpl.
  - now rewrite !app_nil_r.
  - destruct r as [row|]; simpl.
    + destruct (IH (addColumns f c row jr) (fnd ++ [name f]) mis) as [-> ->].
      now rewrite <- app_assoc.
    + destruct (IH jr fnd (mis ++ [name f])) as [-> ->].
      now rewrite <- app_assoc.
Qed.

Lemma scanCombo_names (files : list ParsedFile) (c : JoinCandidate) (k : string)
      (combo : list (option object)) :
  snd (fst (scanCombo files c k combo)) = foundNames files combo
  /\ snd (scanCombo files c k combo) = missingNames files combo.
Proof.
  rewrite scanCombo_fold.
  destruct (scan_names c (combine combo files) [(keyName c, VStr k)] [] [])
    as [H1 H2].
  split; [exact H1|exact H2].
Qed.

Lemma includes_In (l : list string) (n : string) : includes l n = true <-> In n l.
Proof. exact (set_has_true l n). Qed.

Lemma foundNames_In (files : list ParsedFile) (combo : list (option object))
      (n : string) :
  In n (foundNames files combo) -> In n (map name files).
Proof.
  unfold foundNames. rewrite in_map_iff. intros [[r f] [<- H]].
  apply filter_In in H. destruct H as [H _]. apply in_combine_r in H.
  now apply in_map.
Qed.

(** With unique names, a dataset is in [foundInFiles] exactly when its
    position in the combination holds a row. *)
Lemma includes_foundNames (files : list ParsedFile) (combo : list (option object))
      (i : nat) (f : ParsedFile) :
  NoDup (map name files) ->
  nth_error files i = Some f ->
  includes (foundNames files combo) (name f)
  = match nth_error combo i with Some (Some _) => true | _ => false end.
Proof.
  revert combo i. induction files as [|f0 files IH]; intros combo i ND Hf.
  - now destruct i.
  - inversion ND as [|? ? Hn ND']; subst.
    destruct combo as [|r0 combo].
    + now destruct i.
    + destruct i as [|i]; simpl in Hf.
      * injection Hf as ->. simpl.
        assert (Hrest : includes (foundNames files combo) (name f) = false).
        { destruct (includes (foundNames files combo) (name f)) eqn:E; [|reflexivity].
          apply includes_In, foundNames_In in E. contradiction. }
        unfold foundNames in *. simpl. destruct r0 as [row|]; simpl.
        -- now rewrite String.eqb_refl.
        -- exact Hrest.
      * simpl. rewrite <- (IH combo i ND' Hf).
        assert (Hne : name f <> name f0).
        { intro E. apply Hn. rewrite <- E. apply in_map.
          now apply nth_error_In in Hf. }
        unfold foundNames. simpl. destruct r0 as [row|]; simpl; [|reflexivity].
        now rewrite eqb_neq_false.
Qed.

Lemma NoDup_foundColumn (files : list ParsedFile) :
  NoDup (map (fun f => cleanFileName (name f)) files) ->
  NoDup (map foundColumn files).
Proof.
  induction files as [|f files IH]; simpl; intro ND; [constructor|].
  inversion ND as [|? ? Hn ND']; subst. constructor; [|now apply IH].
  intro H. apply Hn. apply in_map_iff in H. destruct H as [g [E Hg]].
  apply in_map_iff. exists g. split; [|assumption].
  unfold foundColumn in E. simpl in E. now injection E.
Qed.

Lemma combination_length (files : list ParsedFile) (c : JoinCandidate)
      (joinType : JoinType) (k : string) (combo : list (option object)) :
  In combo (combinations files c joinType k) -> length combo = length files.
Proof.
  unfold combinations. rewrite filter_In, nestedProduct_In. intros [H _].
  apply Forall2_length in H. now rewrite length_map in H.
Qed.

(** C6, as amended.  Under ADDITIVE every record carries [_Join_Status],
    set by precedence from the datasets found and missing in its
    combination; and, provided the sanitized names of the datasets are
    pairwise distinct, for every dataset the column
    [_Found_In_<sanitizedName>] is ["TRUE"] when the dataset gave a row to
    the combination and ["FALSE"] when it did not. *)
Theorem additive_flags (files : list ParsedFile) (c : JoinCandidate) (r : object) :
  In r (joinDatasets files c ADDITIVE) ->
  exists k combo,
    In k (allKeys files c)
    /\ In combo (combinations files c ADDITIVE k)
    /\ length combo = length files
    /\ r = joinedRowOf files c ADDITIVE k combo
    /\ obj_get r "_Join_Status"
       = VStr (statusOf (foundNames files combo) (missingNames files combo)
                        (length files))
    /\ (NoDup (map (fun f => cleanFileName (name f)) files) ->
        forall i f,
          nth_error files i = Some f ->
          obj_get r ("_Found_In_" ++ cleanFileName (name f))%string
          = VStr (match nth_error combo i with
                  | Some (Some _) => "TRUE"
                  | _ => "FALSE"
                  end)).
Proof.
  intro Hr. apply joinDatasets_In in Hr. destruct Hr as [k [combo [Hk [Hc ->]]]].
  exists k, combo.
  destruct (scanCombo_names files c k combo) as [Hfnd Hmis].
  unfold joinedRowOf. destruct (scanCombo files c k combo) as [[jr fnd] mis].
  simpl in Hfnd, Hmis. subst fnd mis. simpl JoinType_eqb. cbv iota.
  repeat match goal with |- _ /\ _ => split end; try assumption; try reflexivity.
  - eapply combination_length; eauto.
  - rewrite addFlags_fold, fold_set_other.
    + now rewrite obj_get_set_same, joinStatus_statusOf.
    + intros f _. apply found_column_not_status.
  - intros ND i f Hf. rewrite addFlags_fold.
    change ("_Found_In_" ++ cleanFileName (name f))%string with (foundColumn f).
    rewrite (fold_set_same foundColumn).
    + rewrite (includes_foundNames files combo i f); trivial.
      * now destruct (nth_error combo i) as [[row|]|].
      * rewrite <- map_map in ND. now apply NoDup_map_inv in ND.
    + now apply NoDup_foundColumn.
    + now apply nth_error_In in Hf.
Qed.

(* ================================================================== *)
(** * Output column names *)
(* ================================================================== *)

Lemma isAlnum_not_space (ch : ascii) : isAlnum ch = true -> Ascii.eqb ch " " = false.
Proof.
  intro H. destruct (Ascii.eqb ch " ") eqn:E; [|reflexivity].
  apply Ascii.eqb_eq in E. subst ch. discriminate H.
Qed.

Lemma replaceNonAlnum_spaceFree (s : string) : spaceFree (replaceNonAlnum s) = true.
Proof.
  induction s as [|ch s IH]; simpl; [reflexivity|].
  rewrite IH, andb_true_r.
  destruct (isAlnum ch) eqn:E; [|reflexivity].
  now rewrite isAlnum_not_space.
Qed.

Lemma cleanFileName_spaceFree (n : string) : spaceFree (cleanFileName n) = true.
Proof. apply replaceNonAlnum_spaceFree. Qed.

(** The separator is found where the first space is: names without a
    space are cut off unambiguously. *)
Lemma separator_cancel (a b x y : string) :
  spaceFree a = true -> spaceFree b = true ->
  (a ++ " - " ++ x)%string = (b ++ " - " ++ y)%string -> a = b /\ x = y.
Proof.
  revert b. induction a as [|ch a IH]; intros [|ch' b] Ha Hb E; simpl in *.
  - injection E as E. now split.
  - injection E as E1 E2. subst ch'. discriminate Hb.
  - injection E as E1 E2. subst ch. discriminate Ha.
  - injection E as E1 E2. subst ch'.
    apply andb_true_iff in Ha. apply andb_true_iff in Hb.
    destruct (IH b (proj2 Ha) (proj2 Hb) E2) as [-> ->]. now split.
Qed.

Lemma newColName_inj (n1 n2 c1 c2 : string) :
  newColName n1 c1 = newColName n2 c2 ->
  cleanFileName n1 = cleanFileName n2 /\ c1 = c2.
Proof.
  unfold newColName. apply separator_cancel; apply cleanFileName_spaceFree.
Qed.

(** C4, as amended.  Two datasets whose sanitized names differ never give
    the same output column name, whatever their columns are called. *)
Theorem distinct_sanitized_names_isolate_columns (n1 n2 c1 c2 : string) :
  cleanFileName n1 <> cleanFileName n2 -> newColName n1 c1 <> newColName n2 c2.
Proof.
  intros H E. apply H. now apply newColName_inj in E.
Qed.

(* ================================================================== *)
(** * The values of a joined row *)
(* ================================================================== *)

Lemma sanitizeValue_scalar (v : value) : isScalar (sanitizeValue v) = true.
Proof. destruct v as [| |b|n|s|items|props]; reflexivity. Qed.

Lemma sanitizeValue_fixed (v : value) : isScalar v = true -> sanitizeValue v = v.
Proof.
  destruct v as [| |b|n|s|items|props]; intro H;
    try reflexivity; discriminate H.
Qed.

Lemma fold_set_In {A : Type} (kf : A -> string) (vf : A -> value)
      (l : list A) (o : object) (col : string) (v : value) :
  In (col, v) (fold_left (fun o a => obj_set o (kf a) (vf a)) l o) ->
  In (col, v) o \/ exists a, In a l /\ col = kf a /\ v = vf a.
Proof.
  revert o. induction l as [|a l IH]; intros o H; simpl in *; [now left|].
  destruct (IH _ H) as [H'|[b [Hb E]]].
  - apply obj_set_In in H'. destruct H' as [[= -> ->]|H']; [|now left].
    right. exists a. auto.
  - right. exists b. auto.
Qed.

Lemma fold_set_get (g : string -> value) (l : list string) (o : object) (k : string) :
  In k l ->
  obj_get (fold_left (fun o y => obj_set o y (g y)) l o) k = g k.
Proof.
  revert o. induction l as [|y l IH]; intros o H; simpl; [contradiction|].
  destruct (in_dec string_dec k l) as [Hin|Hout].
  - now apply IH.
  - destruct H as [->|H]; [|contradiction].
    rewrite (fold_set_other (fun y => y) g); [apply obj_get_set_same|].
    intros a Ha E. subst. contradiction.
Qed.


Lemma sanitizeRow_scalar (row : object) (col : string) (v : value) :
  In (col, v) (sanitizeRow row) -> isScalar v = true.
Proof.
  unfold sanitizeRow. intro H.
  apply (fold_set_In (fun k => k) (fun k => sanitizeValue (obj_get row k))) in H.
  destruct H as [[]|[k [_ [_ ->]]]]. apply sanitizeValue_scalar.
Qed.






(* ================================================================== *)
(** * The response of the semantic merge *)
(* ================================================================== *)

Lemma flattenValue_scalar (v : value) : isScalar (flattenValue v) = true.
Proof. destruct v as [| |b|n|s|items|props]; reflexivity. Qed.

Lemma cleanRowOf_primitive (row : value) :
  typeof_object row = false \/ row = VNull -> cleanRowOf row = [].
Proof.
  unfold cleanRowOf. intros [H| ->]; [now rewrite H|reflexivity].
Qed.

Lemma cleanRowOf_scalar (row : value) (col : string) (v : value) :
  In (col, v) (cleanRowOf row) -> isScalar v = true.
Proof.
  unfold cleanRowOf.
  destruct (negb (typeof_object row) || match row with VNull => true | _ => false end);
    [contradiction|].
  intro H.
  apply (fold_set_In (fun k => k)
                     (fun k => flattenValue (obj_get (entries row) k))) in H.
  destruct H as [[]|[k [_ [_ ->]]]]. apply flattenValue_scalar.
Qed.

Lemma obj_set_nonempty (o : object) (k : string) (v : value) : obj_set o k v <> [].
Proof.
  destruct o as [|[k0 v0] o]; simpl; [discriminate|].
  destruct (String.eqb k0 k); discriminate.
Qed.

Lemma fold_set_nonempty (g : string -> value) (l : list string) (o : object) :
  o <> [] -> fold_left (fun o y => obj_set o y (g y)) l o <> [].
Proof.
  revert o. induction l as [|y l IH]; intros o H; simpl; [exact H|].
  apply IH, obj_set_nonempty.
Qed.

Lemma cleanRowOf_array (item : value) (items : list value) :
  cleanRowOf (VArr (item :: items)) <> [].
Proof.
  unfold cleanRowOf. cbn [typeof_object negb orb].
  remember (obj_keys (entries (VArr (item :: items)))) as keys eqn:E.
  destruct keys as [|y keys]; [discriminate E|].
  cbn [fold_left].
  apply (fold_set_nonempty
           (fun k => flattenValue (obj_get (entries (VArr (item :: items))) k))).
  apply obj_set_nonempty.
Qed.

(** C9, as amended.  Once the response has arrived, the semantic merge
    returns and does not throw: a missing or empty text, a text that
    [JSON.parse] rejects and a parsed value that is not an array all give
    the empty result; an array gives one record per element, every value
    flattened to a scalar.  An element that is a string, a number, a
    boolean, [null] or [undefined] gives the empty record.  An element that
    is itself an array does not: it is read as a record of its indexed
    elements, and is empty only when the array is. *)
Theorem semantic_merge_response_handling (JSON_parse : string -> completion value) :
  (forall text, exists rows, handleResponse JSON_parse text = Returned rows)
  /\ (forall apiKey text,
         apiKey <> "" ->
         generateSemanticMerge JSON_parse (Some apiKey) (Returned text)
         = handleResponse JSON_parse text)
  /\ handleResponse JSON_parse None = Returned []
  /\ handleResponse JSON_parse (Some "") = Returned []
  /\ (forall t msg,
         JSON_parse t = Thrown msg -> handleResponse JSON_parse (Some t) = Returned [])
  /\ (forall t v,
         JSON_parse t = Returned v -> isArray v = false ->
         handleResponse JSON_parse (Some t) = Returned [])
  /\ (forall t rows,
         t <> "" -> JSON_parse t = Returned (VArr rows) ->
         handleResponse JSON_parse (Some t) = Returned (map cleanRowOf rows))
  /\ (forall row, typeof_object row = false \/ row = VNull -> cleanRowOf row = [])
  /\ (forall item items, cleanRowOf (VArr (item :: items)) <> [])
  /\ (forall row col v, In (col, v) (cleanRowOf row) -> isScalar v = true).
Proof.
  assert (Hret : forall text, exists rows, handleResponse JSON_parse text = Returned rows).
  { intros [t|]; simpl; [|eauto].
    destruct (String.eqb t ""); [eauto|].
    destruct (JSON_parse t) as [v|msg]; [|eauto].
    destruct v; eauto. }
  repeat match goal with |- _ /\ _ => split end.
  - exact Hret.
  - intros apiKey text Hk. unfold generateSemanticMerge.
    rewrite (eqb_neq_false apiKey "" Hk).
    destruct (Hret text) as [rows ->]. reflexivity.
  - reflexivity.
  - reflexivity.
  - intros t msg H. simpl. rewrite H. now destruct (String.eqb t "").
  - intros t v H Hv. simpl. rewrite H. destruct (String.eqb t ""); [reflexivity|].
    destruct v; try reflexivity. discriminate Hv.
  - intros t rows Ht H. simpl. now rewrite H, (eqb_neq_false t "" Ht).
  - apply cleanRowOf_primitive.
  - apply cleanRowOf_array.
  - apply cleanRowOf_scalar.
Qed.

(* ================================================================== *)
(** * The theorems at work, and where the specification overstates *)
(* ================================================================== *)

Import Examples.

(** The records of the demo workspace that section 8 names. *)
Example demo_additive_status :
  map (fun r => (obj_get r "Customer ID", obj_get r "_Join_Status"))
      (joinDatasets Demo.demoFiles Demo.demoCandidate ADDITIVE)
  = [(VStr "101", VStr "Matched (All Files)");
     (VStr "101", VStr "Matched (All Files)");
     (VStr "102", VStr "Matched (All Files)");
     (VStr "103", VStr "Matched (All Files)");
     (VStr "103", VStr "Matched (All Files)");
     (VStr "104", VStr "Unique to CRM_Customers.csv");
     (VStr "105", VStr "Unique to CRM_Customers.csv");
     (VStr "999", VStr "Unique to Sales_Orders.csv")].
Proof. vm_compute. reflexivity. Qed.

Example sanitize_array_example :
  sanitizeValue (VArr [VNum 1; VObj [("a", VNum 2)]])
  = VStr (String.concat "" ["1 | {"; String dquote "a"; String dquote ":2}"])
  /\ sanitizeValue VUndefined = VNull /\ sanitizeValue VNull = VNull.
Proof. vm_compute. repeat split. Qed.



(** C4 as stated fails: names that differ in the extension only have the
    same sanitized name, and their columns fall together. *)
Lemma extension_twins_share_columns :
  "data.csv" <> "data.xlsx"
  /\ newColName "data.csv" "x" = newColName "data.xlsx" "x"
  /\ joinDatasets [csvFile; xlsxFile] twinCandidate OUTER
     = [[("ID", VStr "1"); ("data - x", VStr "from xlsx")];
        [("ID", VStr "3"); ("data - x", VStr "csv only")];
        [("ID", VStr "2"); ("data - x", VStr "xlsx only")]]
  /\ ~ (forall n1 n2 c1 c2 : string, n1 <> n2 -> newColName n1 c1 <> newColName n2 c2).
Proof.
  split; [discriminate|]. split; [vm_compute; reflexivity|].
  split; [vm_compute; reflexivity|].
  intro H. apply (H "data.csv" "data.xlsx" "x" "x"); [discriminate|].
  vm_compute. reflexivity.
Qed.

Lemma distinct_names_witness :
  cleanFileName "CRM_Customers.csv" <> cleanFileName "Sales_Orders.csv"
  /\ newColName "CRM_Customers.csv" "Region" <> newColName "Sales_Orders.csv" "Region".
Proof.
  assert (H : cleanFileName "CRM_Customers.csv" <> cleanFileName "Sales_Orders.csv")
    by (vm_compute; discriminate).
  split; [exact H|].
  exact (distinct_sanitized_names_isolate_columns _ _ "Region" "Region" H).
Defined.


(** C6 as stated fails: when two datasets share a sanitized name they share
    the flag column, which then tells of the later of the two only. *)
Lemma found_flag_overwritten :
  NoDup (map name [csvFile; xlsxFile])
  /\ combinations [csvFile; xlsxFile] twinCandidate ADDITIVE "3"
     = [[Some [("id", VNum 3); ("x", VStr "csv only")]; None]]
  /\ joinDatasets [csvFile; xlsxFile] twinCandidate ADDITIVE
     = [[("ID", VStr "1"); ("data - x", VStr "from xlsx");
         ("_Join_Status", VStr "Matched (All Files)"); ("_Found_In_data", VStr "TRUE")];
        [("ID", VStr "3"); ("data - x", VStr "csv only");
         ("_Join_Status", VStr "Unique to data.csv"); ("_Found_In_data", VStr "FALSE")];
        [("ID", VStr "2"); ("data - x", VStr "xlsx only");
         ("_Join_Status", VStr "Unique to data.xlsx"); ("_Found_In_data", VStr "TRUE")]]
  /\ ~ (forall files c k combo i f,
           NoDup (map name files) ->
           In combo (combinations files c ADDITIVE k) ->
           nth_error files i = Some f ->
           obj_get (joinedRowOf files c ADDITIVE k combo)
                   ("_Found_In_" ++ cleanFileName (name f))%string
           = VStr (match nth_error combo i with
                   | Some (Some _) => "TRUE"
                   | _ => "FALSE"
                   end)).
Proof.
  assert (ND : NoDup (map name [csvFile; xlsxFile])).
  { simpl. constructor; [|constructor; [|constructor]]; simpl; intuition discriminate. }
  split; [exact ND|]. split; [vm_compute; reflexivity|].
  split; [vm_compute; reflexivity|].
  intro H.
  specialize (H [csvFile; xlsxFile] twinCandidate "3"
                [Some [("id", VNum 3); ("x", VStr "csv only")]; None] 0 csvFile ND).
  assert (E : VStr "FALSE" = VStr "TRUE").
  { apply H; [vm_compute; left; reflexivity|reflexivity]. }
  discriminate E.
Qed.

Lemma additive_flags_witness :
  In (nth 5 (joinDatasets Demo.demoFiles Demo.demoCandidate ADDITIVE) [])
     (joinDatasets Demo.demoFiles Demo.demoCandidate ADDITIVE)
  /\ NoDup (map (fun f => cleanFileName (name f)) Demo.demoFiles)
  /\ exists k combo,
      nth 5 (joinDatasets Demo.demoFiles Demo.demoCandidate ADDITIVE) []
      = joinedRowOf Demo.demoFiles Demo.demoCandidate ADDITIVE k combo
      /\ obj_get (nth 5 (joinDatasets Demo.demoFiles Demo.demoCandidate ADDITIVE) [])
                 "_Join_Status"
         = VStr (statusOf (foundNames Demo.demoFiles combo)
                          (missingNames Demo.demoFiles combo) 2)
      /\ obj_get (nth 5 (joinDatasets Demo.demoFiles Demo.demoCandidate ADDITIVE) [])
                 "_Found_In_Sales_Orders"
         = VStr (match nth_error combo 1 with
                 | Some (Some _) => "TRUE"
                 | _ => "FALSE"
                 end).
Proof.
  assert (H1 : In (nth 5 (joinDatasets Demo.demoFiles Demo.demoCandidate ADDITIVE) [])
                  (joinDatasets Demo.demoFiles Demo.demoCandidate ADDITIVE))
    by (vm_compute; do 5 right; left; reflexivity).
  assert (ND : NoDup (map (fun f => cleanFileName (name f)) Demo.demoFiles)).
  { vm_compute. constructor; [|constructor; [|constructor]]; simpl; intuition discriminate. }
  split; [exact H1|]. split; [exact ND|].
  destruct (additive_flags Demo.demoFiles Demo.demoCandidate _ H1)
    as (k & combo & _ & _ & _ & Hr & Hs & Hf).
  exists k, combo. split; [exact Hr|]. split; [exact Hs|].
  exact (Hf ND 1 (Demo.mkFile "Sales_Orders.csv" Demo.orders) eq_refl).
Defined.

Lemma unmapped_dataset_witness :
  getKeyColumnForFile notesFile Demo.demoCandidate = None
  /\ fileDataMap notesFile Demo.demoCandidate = []
  /\ statOUTER (calculateJoinStats (Demo.demoFiles ++ [notesFile]) Demo.demoCandidate)
     = statOUTER (calculateJoinStats (Demo.demoFiles ++ []) Demo.demoCandidate)
  /\ joinDatasets (Demo.demoFiles ++ [notesFile]) Demo.demoCandidate INNER = []
  /\ joinDatasets (Demo.demoFiles ++ [notesFile]) Demo.demoCandidate LEFT
     = joinDatasets (Demo.demoFiles ++ []) Demo.demoCandidate LEFT.
Proof.
  assert (H : getKeyColumnForFile notesFile Demo.demoCandidate = None) by reflexivity.
  destruct (unmapped_dataset_is_always_missing Demo.demoFiles [] notesFile
              Demo.demoCandidate H)
    as (G1 & _ & _ & G4 & _ & _ & G7 & _ & _ & G10 & _).
  split; [exact H|]. split; [exact G1|]. split; [exact G4|]. split; [exact G7|].
  apply G10. discriminate.
Defined.

(** C9 as stated fails for an element that is an array. *)
Lemma array_row_not_emptied :
  cleanRowOf (VArr [VNum 1; VNum 2]) = [("0", VNum 1); ("1", VNum 2)]
  /\ handleResponse (fun _ => Returned (VArr [VArr [VNum 1; VNum 2]])) (Some "response")
     = Returned [[("0", VNum 1); ("1", VNum 2)]]
  /\ ~ (forall row, (forall props, row <> VObj props) -> cleanRowOf row = []).
Proof.
  split; [vm_compute; reflexivity|]. split; [vm_compute; reflexivity|].
  intro H. specialize (H (VArr [VNum 1; VNum 2])).
  assert (E : cleanRowOf (VArr [VNum 1; VNum 2]) = []) by (apply H; discriminate).
  discriminate E.
Qed.

Lemma semantic_merge_witness :
  handleResponse
    (fun _ => Returned (VArr [VStr "orphan text"; VNull;
                              VObj [("ID", VNum 1); ("tags", VArr [VNum 1; VNum 2])]]))
    (Some "response")
  = Returned [[]; []; [("ID", VNum 1); ("tags", VStr "1 | 2")]]
  /\ handleResponse (fun _ => Thrown "SyntaxError") (Some "not json") = Returned [].
Proof.
  split.
  - refine (proj1 (proj2 (proj2 (proj2 (proj2 (proj2 (proj2
             (semantic_merge_response_handling
                (fun _ => Returned
                   (VArr [VStr "orphan text"; VNull;
                          VObj [("ID", VNum 1); ("tags", VArr [VNum 1; VNum 2])]])))))))))
             "response" _ _ eq_refl).
    discriminate.
  - exact (proj1 (proj2 (proj2 (proj2 (proj2
             (semantic_merge_response_handling (fun _ => Thrown "SyntaxError"))))))
             "not json" "SyntaxError" eq_refl).
Defined.



(* ================================================================== *)
(** * Sanitizing and flattening rows *)
(* ================================================================== *)

Lemma obj_keys_set (o : object) (k : string) (v : value) :
  obj_keys (obj_set o k v) = set_add (obj_keys o) k.
Proof.
  unfold set_add, set_has, obj_keys.
  induction o as [|[k0 v0] o IH]; simpl; [reflexivity|].
  rewrite (String.eqb_sym k k0).
  destruct (String.eqb k0 k) eqn:E; simpl.
  - apply String.eqb_eq in E. now subst.
  - rewrite IH. now destruct (existsb (String.eqb k) (map fst o)).
Qed.

Lemma set_add_NoDup (s : list string) (k : string) : NoDup s -> NoDup (set_add s k).
Proof.
  intro ND. unfold set_add. destruct (set_has s k) eqn:E; [assumption|].
  apply set_has_false in E. apply NoDup_app; auto.
  - repeat constructor. simpl. tauto.
  - intros x Hx [<-|[]]. contradiction.
Qed.

Lemma obj_set_NoDup (o : object) (k : string) (v : value) :
  NoDup (obj_keys o) -> NoDup (obj_keys (obj_set o k v)).
Proof. intro H. rewrite obj_keys_set. now apply set_add_NoDup. Qed.

Lemma fold_set_NoDup {A : Type} (kf : A -> string) (vf : A -> value)
      (l : list A) (o : object) :
  NoDup (obj_keys o) ->
  NoDup (obj_keys (fold_left (fun o a => obj_set o (kf a) (vf a)) l o)).
Proof.
  revert o. induction l as [|a l IH]; intros o H; simpl; [exact H|].
  apply IH. now apply obj_set_NoDup.
Qed.

Lemma obj_set_fresh (o : object) (k : string) (v : value) :
  ~ In k (obj_keys o) -> obj_set o k v = o ++ [(k, v)].
Proof.
  induction o as [|[k0 v0] o IH]; simpl; intro H; [reflexivity|].
  destruct (String.eqb k0 k) eqn:E.
  - apply String.eqb_eq in E. exfalso. auto.
  - rewrite IH; [reflexivity|tauto].
Qed.

Lemma fold_set_fresh (g : string -> value) (l : list string) (o : object) :
  NoDup l -> (forall k, In k l -> ~ In k (obj_keys o)) ->
  fold_left (fun o k => obj_set o k (g k)) l o = o ++ map (fun k => (k, g k)) l.
Proof.
  revert o. induction l as [|k l IH]; intros o ND H; simpl.
  - now rewrite app_nil_r.
  - inversion ND as [|? ? Hk ND']; subst.
    rewrite obj_set_fresh by (apply H; now left).
    rewrite IH; [now rewrite <- app_assoc|assumption|].
    intros x Hx. unfold obj_keys. rewrite map_app, in_app_iff. simpl.
    intros [Hin|[<-|[]]]; [|contradiction].
    apply (H x); [now right|exact Hin].
Qed.

Lemma obj_get_in (o : object) (k : string) (v : value) :
  NoDup (obj_keys o) -> In (k, v) o -> obj_get o k = v.
Proof.
  induction o as [|[k0 v0] o IH]; simpl; intros ND H; [contradiction|].
  inversion ND as [|? ? Hn ND']; subst.
  destruct H as [[= -> ->]|H].
  - now rewrite String.eqb_refl.
  - destruct (String.eqb k0 k) eqn:E; [|now apply IH].
    apply String.eqb_eq in E. subst k0. exfalso. apply Hn.
    change k with (fst (k, v)). now apply in_map.
Qed.

Lemma sanitizeRow_entries (row : object) :
  NoDup (obj_keys row) -> sanitizeRow row = sanitizedEntries row.
Proof.
  intro ND. unfold sanitizeRow, sanitizedEntries.
  rewrite (fold_set_fresh (fun k => sanitizeValue (obj_get row k))) by (auto; intros ? ? []).
  simpl. unfold obj_keys. rewrite map_map. apply map_ext_in.
  intros [k v] Hin. simpl. now rewrite (obj_get_in row k v).
Qed.

Lemma sanitizeRow_NoDup (row : object) : NoDup (obj_keys (sanitizeRow row)).
Proof.
  unfold sanitizeRow.
  apply (fold_set_NoDup (fun k => k) (fun k => sanitizeValue (obj_get row k))).
  constructor.
Qed.

(** A record with distinct columns and scalar values is not changed. *)
Lemma sanitizeRow_fixed (row : object) :
  NoDup (obj_keys row) ->
  (forall col v, In (col, v) row -> isScalar v = true) ->
  sanitizeRow row = row.
Proof.
  intros ND H. rewrite sanitizeRow_entries by assumption.
  unfold sanitizedEntries. rewrite <- (map_id row) at 2.
  apply map_ext_in. intros [k v] Hin. simpl.
  now rewrite sanitizeValue_fixed by (eapply H; eauto).
Qed.

Lemma sanitizeRow_idempotent (row : object) :
  sanitizeRow (sanitizeRow row) = sanitizeRow row.
Proof.
  apply sanitizeRow_fixed; [apply sanitizeRow_NoDup|].
  intros col v. apply sanitizeRow_scalar.
Qed.

Lemma map_fixed {A : Type} (f : A -> A) (l : list A) :
  (forall a, In a l -> f a = a) -> map f l = l.
Proof.
  intro H. rewrite <- (map_id l) at 2. now apply map_ext_in.
Qed.

(** X1.  The rows that [downloadCSV] writes hold strings, numbers and
    booleans only: each value is flattened as [createJoinedFile] sanitizes
    it, except that [null] and [undefined] become the empty string. *)
Theorem downloadCSV_cells :
  (forall v, CsvExport.flatValue v
             = match sanitizeValue v with VNull => VStr "" | x => x end)
  /\ (forall row k,
         In k (obj_keys row) ->
         obj_get (CsvExport.flatRow row) k = CsvExport.flatValue (obj_get row k))
  /\ (forall rows r col v,
         In r (CsvExport.flatData rows) -> In (col, v) r ->
         CsvExport.isCell v = true).
Proof.
  split; [|split].
  - intros [| |b|n|s|items|props]; reflexivity.
  - intros row k H. unfold CsvExport.flatRow.
    exact (fold_set_get (fun k => CsvExport.flatValue (obj_get row k))
                        (obj_keys row) [] k H).
  - intros rows r col v Hr Hv. unfold CsvExport.flatData in Hr.
    apply in_map_iff in Hr. destruct Hr as [row [<- _]].
    unfold CsvExport.flatRow in Hv.
    apply (fold_set_In (fun k => k)
                       (fun k => CsvExport.flatValue (obj_get row k))) in Hv.
    destruct Hv as [[]|[k [_ [_ ->]]]].
    now destruct (obj_get row k).
Qed.

(** X2.  Sanitizing is idempotent: the rows of a file made by
    [createJoinedFile], given to [createJoinedFile] again, come back as
    they are, with the same headers, preview and row count. *)
Theorem createJoinedFile_idempotent (rows : list object) (n n' : string) :
  data (createJoinedFile (data (createJoinedFile rows n)) n')
  = data (createJoinedFile rows n)
  /\ headers (createJoinedFile (data (createJoinedFile rows n)) n')
     = headers (createJoinedFile rows n)
  /\ previewData (createJoinedFile (data (createJoinedFile rows n)) n')
     = previewData (createJoinedFile rows n)
  /\ rowCount (createJoinedFile (data (createJoinedFile rows n)) n')
     = rowCount (createJoinedFile rows n).
Proof.
  assert (H : map sanitizeRow (map sanitizeRow rows) = map sanitizeRow rows).
  { rewrite map_map. apply map_ext. intro row. apply sanitizeRow_idempotent. }
  unfold createJoinedFile. cbn [data headers previewData rowCount].
  now rewrite H.
Qed.


(* ================================================================== *)
(** * Saving and downloading a join *)
(* ================================================================== *)











(** ** The rows of the semantic merge *)

Lemma flattenValue_sanitizeValue (v : value) : flattenValue v = sanitizeValue v.
Proof. destruct v as [| |b|n|s|items|props]; reflexivity. Qed.

Lemma cleanRowOf_NoDup (row : value) : NoDup (obj_keys (cleanRowOf row)).
Proof.
  unfold cleanRowOf.
  destruct (negb (typeof_object row) || match row with VNull => true | _ => false end);
    [constructor|].
  apply (fold_set_NoDup (fun k => k)
                        (fun k => flattenValue (obj_get (entries row) k))).
  constructor.
Qed.

Lemma cleanRowOf_fixed (row : value) : sanitizeRow (cleanRowOf row) = cleanRowOf row.
Proof.
  apply sanitizeRow_fixed; [apply cleanRowOf_NoDup|].
  intros col v. apply cleanRowOf_scalar.
Qed.

Lemma handleResponse_rows (JSON_parse : string -> completion value)
      (responseText : option string) (rows : list object) :
  handleResponse JSON_parse responseText = Returned rows ->
  exists raw, rows = map cleanRowOf raw.
Proof.
  unfold handleResponse. destruct responseText as [t|].
  - destruct (String.eqb t ""); [intros [= <-]; now exists []|].
    destruct (JSON_parse t) as [v|msg]; [|intros [= <-]; now exists []].
    destruct v; intros [= <-]; try (now exists []). now exists items.
  - intros [= <-]. now exists [].
Qed.

Lemma generateSemanticMerge_rows (JSON_parse : string -> completion value)
      (apiKey : option string) (generateContent : completion (option string))
      (rows : list object) :
  generateSemanticMerge JSON_parse apiKey generateContent = Returned rows ->
  exists raw, rows = map cleanRowOf raw.
Proof.
  unfold generateSemanticMerge. destruct apiKey as [k|]; [|discriminate].
  destruct (String.eqb k ""); [discriminate|].
  destruct generateContent as [t|e]; [|discriminate].
  destruct (handleResponse JSON_parse t) as [rs|msg] eqn:E; [|discriminate].
  intros [= <-]. eapply handleResponse_rows; eauto.
Qed.

(** X6.  The two sanitizers agree on every value, so a semantic merge is
    saved as the merge returned it: [createJoinedFile] changes nothing in
    the rows of [generateSemanticMerge]. *)
Theorem semantic_merge_saved_unchanged
        (JSON_parse : string -> completion value) (apiKey : option string)
        (generateContent : completion (option string))
        (files : list ParsedFile) (c : JoinCandidate) (rows : list object) :
  generateSemanticMerge JSON_parse apiKey generateContent = Returned rows ->
  (forall v, flattenValue v = sanitizeValue v)
  /\ exists saved,
      AnalysisResult.handleSave JSON_parse apiKey generateContent files c AI_SEMANTIC
      = Some saved
      /\ data saved = rows
      /\ rowCount saved = length rows.
Proof.
  intro H. split; [apply flattenValue_sanitizeValue|].
  unfold AnalysisResult.handleSave, AnalysisResult.joinedData. rewrite H.
  eexists. split; [reflexivity|].
  destruct (generateSemanticMerge_rows _ _ _ _ H) as [raw ->].
  simpl. rewrite length_map. split; [|reflexivity].
  apply map_fixed. intros r Hr. apply in_map_iff in Hr.
  destruct Hr as [row [<- _]]. apply cleanRowOf_fixed.
Qed.

Lemma semantic_merge_saved_witness :
  generateSemanticMerge
    (fun _ => Returned (VArr [VObj [("ID", VNum 1); ("tags", VArr [VNum 1; VNum 2])]]))
    (Some "key") (Returned (Some "response"))
  = Returned [[("ID", VNum 1); ("tags", VStr "1 | 2")]]
  /\ exists saved,
      AnalysisResult.handleSave
        (fun _ => Returned (VArr [VObj [("ID", VNum 1); ("tags", VArr [VNum 1; VNum 2])]]))
        (Some "key") (Returned (Some "response")) [] Demo.demoCandidate AI_SEMANTIC
      = Some saved
      /\ data saved = [[("ID", VNum 1); ("tags", VStr "1 | 2")]].
Proof.
  assert (H : generateSemanticMerge
                (fun _ => Returned
                   (VArr [VObj [("ID", VNum 1); ("tags", VArr [VNum 1; VNum 2])]]))
                (Some "key") (Returned (Some "response"))
              = Returned [[("ID", VNum 1); ("tags", VStr "1 | 2")]])
    by reflexivity.
  split; [exact H|].
  destruct (proj2 (semantic_merge_saved_unchanged _ _ _ [] Demo.demoCandidate _ H))
    as (saved & H1 & H2 & _).
  exists saved. split; [exact H1|exact H2].
Defined.

(* ================================================================== *)
(** * Key counts *)
(* ================================================================== *)

Lemma sum_map_set (m : jsmap nat) (k : string) :
  sumOf (map snd (map_set m k (orZero (map_get m k) + 1))) = sumOf (map snd m) + 1.
Proof.
  induction m as [|[k0 n0] m IH]; simpl; [reflexivity|].
  destruct (String.eqb k0 k); simpl.
  - unfold sumOf. lia.
  - unfold sumOf in *. simpl in *. rewrite IH. lia.
Qed.

Lemma countBy_total (kf : object -> string) (rows : list object) (m : jsmap nat) :
  sumOf (map snd (countBy kf rows m))
  = sumOf (map snd m)
    + length (filter (fun row => negb (String.eqb (kf row) "")) rows).
Proof.
  revert m. unfold countBy. induction rows as [|r rows IH]; intro m; simpl; [lia|].
  destruct (String.eqb (kf r) ""); simpl; rewrite IH; [reflexivity|].
  rewrite sum_map_set. lia.
Qed.

Lemma filter_length_le {A : Type} (p : A -> bool) (l : list A) :
  length (filter p l) <= length l.
Proof.
  induction l as [|a l IH]; simpl; [lia|]. destruct (p a); simpl; lia.
Qed.

(** X7.  The counts of [getKeyCountsFromFile] add up to the number of rows
    of the file whose key is not empty; the empty key is never counted,
    every key is counted once, and each count is positive: the number of
    rows that carry the key. *)
Theorem key_counts_add_up (f : ParsedFile) (c : JoinCandidate) :
  sumOf (map snd (getKeyCountsFromFile f c)) = length (joinableRows f c)
  /\ sumOf (map snd (getKeyCountsFromFile f c)) <= length (data f)
  /\ NoDup (map_keys (getKeyCountsFromFile f c))
  /\ (forall k n,
         In (k, n) (getKeyCountsFromFile f c) ->
         k <> "" /\ 0 < n /\ n = occurrences f c k).
Proof.
  assert (Htotal : sumOf (map snd (getKeyCountsFromFile f c))
                   = length (joinableRows f c)).
  { rewrite getKeyCounts_countBy, countBy_total. reflexivity. }
  assert (ND : NoDup (map_keys (getKeyCountsFromFile f c)))
    by (rewrite getKeyCounts_keys; apply firstOccurrences_NoDup).
  split; [exact Htotal|]. split; [|split].
  - rewrite Htotal. apply filter_length_le.
  - exact ND.
  - intros k n Hin.
    assert (Hk : In k (map_keys (getKeyCountsFromFile f c)))
      by (change k with (fst (k, n)); now apply in_map).
    rewrite getKeyCounts_keys, firstOccurrences_In in Hk.
    apply keyStream_In in Hk. destruct Hk as [Hne Hpos].
    apply (map_get_in _ _ _ ND) in Hin.
    pose proof (getKeyCounts_get f c k Hne) as Hget. rewrite Hin in Hget.
    simpl in Hget. subst n. auto.
Qed.

(* ================================================================== *)
(** * How the join types relate *)
(* ================================================================== *)










Lemma Forall2_map_same {A B C : Type} (R : B -> C -> Prop) (f : A -> B) (g : A -> C)
      (l : list A) :
  (forall a, R (f a) (g a)) -> Forall2 R (map f l) (map g l).
Proof. intro H. induction l as [|a l IH]; simpl; constructor; auto. Qed.

Lemma Forall2_flat_map_same {A B C : Type} (R : B -> C -> Prop)
      (f : A -> list B) (g : A -> list C) (l : list A) :
  (forall a, Forall2 R (f a) (g a)) -> Forall2 R (flat_map f l) (flat_map g l).
Proof.
  intro H. induction l as [|a l IH]; simpl; [constructor|].
  apply Forall2_app; auto.
Qed.

(** X9.  The ADDITIVE join is the OUTER join with flags: it returns as
    many records in the same order, and each record agrees with the OUTER
    record at its position on every column that is neither [_Join_Status]
    nor a [_Found_In_] column. *)
Theorem additive_is_outer_with_flags (files : list ParsedFile) (c : JoinCandidate) :
  Forall2
    (fun additive outer =>
       forall col,
         col <> "_Join_Status" ->
         (forall f, In f files ->
                    col <> ("_Found_In_" ++ cleanFileName (name f))%string) ->
         obj_get additive col = obj_get outer col)
    (joinDatasets files c ADDITIVE) (joinDatasets files c OUTER).
Proof.
  rewrite !joinDatasets_by_key. apply Forall2_flat_map_same. intro k.
  unfold recordsOfKey. simpl. apply Forall2_map_same. intros combo col Hs Hf.
  unfold joinedRowOf. destruct (scanCombo files c k combo) as [[jr fnd] mis]. simpl.
  rewrite addFlags_fold, fold_set_other.
  - apply obj_get_set_other. congruence.
  - intros f Hin E. apply (Hf f Hin). now rewrite <- E.
Qed.

(* ================================================================== *)
(** * Which rows a join keeps *)
(* ================================================================== *)

Lemma nestedProduct_inhabited {A : Type} (arrays : list (list A)) :
  (forall a, In a arrays -> a <> []) -> exists combo, In combo (nestedProduct arrays).
Proof.
  induction arrays as [|first others IH]; intro H.
  - exists []. now left.
  - destruct IH as [rest Hrest]; [intros; apply H; now right|].
    destruct first as [|x first]; [exfalso; now apply (H []); [left|]|].
    exists (x :: rest). apply nestedProduct_In. constructor; [now left|].
    now apply nestedProduct_In.
Qed.

(** Where all arrays have an element, every element is in a combination,
    at the place of its array. *)
Lemma nestedProduct_pick {A : Type} (arrays : list (list A)) (i : nat)
      (a : list A) (x : A) :
  (forall arr, In arr arrays -> arr <> []) ->
  nth_error arrays i = Some a -> In x a ->
  exists combo, In combo (nestedProduct arrays) /\ nth_error combo i = Some x.
Proof.
  revert i. induction arrays as [|first others IH]; intros i H Hi Hx.
  - now destruct i.
  - destruct i as [|i]; simpl in Hi.
    + injection Hi as ->.
      destruct (nestedProduct_inhabited others) as [rest Hrest];
        [intros; apply H; now right|].
      exists (x :: rest). split; [|reflexivity].
      apply nestedProduct_In. constructor; [assumption|now apply nestedProduct_In].
    + destruct (IH i) as [rest [Hrest Hnth]]; auto.
      { intros; apply H; now right. }
      destruct first as [|y first]; [exfalso; now apply (H []); [left|]|].
      exists (y :: rest). split; [|exact Hnth].
      apply nestedProduct_In. constructor; [now left|now apply nestedProduct_In].
Qed.

Lemma groupOrPlaceholder_nonempty (f : ParsedFile) (c : JoinCandidate) (k : string) :
  groupOrPlaceholder f c k <> [].
Proof. unfold groupOrPlaceholder. destruct (group f c k); discriminate. Qed.

Lemma group_In (f : ParsedFile) (c : JoinCandidate) (row : object) :
  In row (data f) -> In row (group f c (rowKey f c row)).
Proof.
  intro H. unfold group. apply filter_In. split; [exact H|apply String.eqb_refl].
Qed.

Lemma groupOrPlaceholder_In (f : ParsedFile) (c : JoinCandidate) (row : object) :
  In row (data f) -> In (Some row) (groupOrPlaceholder f c (rowKey f c row)).
Proof.
  intro H. apply (group_In f c) in H. unfold groupOrPlaceholder.
  destruct (group f c (rowKey f c row)); [contradiction|]. now apply in_map.
Qed.

(** X10.  No joinable row is lost: under OUTER and ADDITIVE every row
    with a non-empty key, of every dataset, is at its dataset's position in
    a combination that gives a record of the join; under LEFT this holds of
    the rows of dataset 0, and under INNER of the rows whose key occurs in
    every dataset. *)
Theorem joinable_rows_are_kept
        (files : list ParsedFile) (c : JoinCandidate) (joinType : JoinType)
        (i : nat) (file : ParsedFile) (row : object) :
  nth_error files i = Some file ->
  In row (data file) ->
  rowKey file c row <> "" ->
  joinType = OUTER \/ joinType = ADDITIVE \/ (joinType = LEFT /\ i = 0)
  \/ (joinType = INNER
      /\ forall f, In f files -> 0 < occurrences f c (rowKey file c row)) ->
  exists combo,
    In combo (combinations files c joinType (rowKey file c row))
    /\ nth_error combo i = Some (Some row)
    /\ In (joinedRowOf files c joinType (rowKey file c row) combo)
          (joinDatasets files c joinType).
Proof.
  intros Hf Hrow Hkey Hjt. set (k := rowKey file c row) in *.
  assert (Hk : In k (allKeys files c)).
  { apply allKeys_In. split; [assumption|]. exists file.
    split; [now apply nth_error_In in Hf|].
    unfold occurrences. apply filter_length_pos. exists row.
    split; [assumption|apply String.eqb_refl]. }
  destruct (nestedProduct_pick (map (fun f => groupOrPlaceholder f c k) files) i
              (groupOrPlaceholder file c k) (Some row))
    as [combo [Hin Hnth]].
  - intros arr Harr. apply in_map_iff in Harr. destruct Harr as [f [<- _]].
    apply groupOrPlaceholder_nonempty.
  - now rewrite nth_error_map, Hf.
  - now apply groupOrPlaceholder_In.
  - assert (Hc : In combo (combinations files c joinType k)).
    { unfold combinations. apply filter_In. split; [exact Hin|].
      destruct Hjt as [->|[->|[[-> ->]|[-> Hall]]]]; try reflexivity.
      - simpl. destruct combo as [|r0 combo]; [discriminate|].
        simpl in Hnth. now injection Hnth as ->.
      - simpl. apply nestedProduct_In in Hin.
        rewrite (combination_all_rows files c k combo Hin).
        destruct (existsb negb (map (fun f => 0 <? occurrences f c k) files)) eqn:E;
          [|reflexivity].
        apply existsb_exists in E. destruct E as [b [Hb Hn]].
        apply in_map_iff in Hb. destruct Hb as [f [<- Hfin]].
        apply negb_true_iff, Nat.ltb_ge in Hn. specialize (Hall f Hfin). lia. }
    exists combo. split; [exact Hc|]. split; [exact Hnth|].
    apply joinDatasets_In. exists k, combo. auto.
Qed.

Lemma joinable_rows_witness :
  nth_error Demo.demoFiles 1 = Some (Demo.mkFile "Sales_Orders.csv" Demo.orders)
  /\ In (Demo.order "ORD-006" 999 "Mystery Purchase" 100) Demo.orders
  /\ rowKey (Demo.mkFile "Sales_Orders.csv" Demo.orders) Demo.demoCandidate
            (Demo.order "ORD-006" 999 "Mystery Purchase" 100) = "999"
  /\ exists combo,
      In combo (combinations Demo.demoFiles Demo.demoCandidate OUTER "999")
      /\ nth_error combo 1 = Some (Some (Demo.order "ORD-006" 999 "Mystery Purchase" 100)).
Proof.
  assert (H1 : nth_error Demo.demoFiles 1
               = Some (Demo.mkFile "Sales_Orders.csv" Demo.orders)) by reflexivity.
  assert (H2 : In (Demo.order "ORD-006" 999 "Mystery Purchase" 100)
                  (data (Demo.mkFile "Sales_Orders.csv" Demo.orders)))
    by (simpl; do 5 right; left; reflexivity).
  assert (H3 : rowKey (Demo.mkFile "Sales_Orders.csv" Demo.orders) Demo.demoCandidate
                      (Demo.order "ORD-006" 999 "Mystery Purchase" 100) = "999")
    by reflexivity.
  split; [exact H1|]. split; [exact H2|]. split; [exact H3|].
  destruct (joinable_rows_are_kept Demo.demoFiles Demo.demoCandidate OUTER 1
              (Demo.mkFile "Sales_Orders.csv" Demo.orders)
              (Demo.order "ORD-006" 999 "Mystery Purchase" 100) H1 H2)
    as (combo & Hc & Hn & _).
  - rewrite H3. discriminate.
  - now left.
  - exists combo. rewrite H3 in Hc. split; [exact Hc|exact Hn].
Defined.

(* ================================================================== *)
(** * What a join reads of the candidate *)
(* ================================================================== *)

Lemma fold_left_ext_in {A B : Type} (f g : A -> B -> A) (l : list B) (a : A) :
  (forall x y, In y l -> f x y = g x y) -> fold_left f l a = fold_left g l a.
Proof.
  revert a. induction l as [|b l IH]; intros a H; simpl; [reflexivity|].
  rewrite (H a b (or_introl eq_refl)). apply IH. intros; apply H; now right.
Qed.

Section SameMappings.
Variables (files : list ParsedFile) (c c' : JoinCandidate).
Hypothesis sameKeyName : keyName c = keyName c'.
Hypothesis sameColumns :
  forall f, In f files -> getKeyColumnForFile f c = getKeyColumnForFile f c'.

Lemma same_fileDataMap (f : ParsedFile) :
  In f files -> fileDataMap f c = fileDataMap f c'.
Proof. intro H. unfold fileDataMap. now rewrite (sameColumns f H). Qed.

Lemma same_keyCounts (f : ParsedFile) :
  In f files -> getKeyCountsFromFile f c = getKeyCountsFromFile f c'.
Proof. intro H. unfold getKeyCountsFromFile. now rewrite (sameColumns f H). Qed.

Lemma same_joinedRowOf (joinType : JoinType) (k : string) (combo : list (option object)) :
  joinedRowOf files c joinType k combo = joinedRowOf files c' joinType k combo.
Proof.
  unfold joinedRowOf. rewrite !scanCombo_fold, sameKeyName.
  rewrite (fold_left_ext_in (scanStep c) (scanStep c')); [reflexivity|].
  intros [[jr fnd] mis] [[row|] f] Hin; [|reflexivity].
  apply in_combine_r in Hin. unfold scanStep, addColumns.
  now rewrite (sameColumns f Hin).
Qed.

Lemma same_joinDatasets (joinType : JoinType) :
  joinDatasets files c joinType = joinDatasets files c' joinType.
Proof.
  unfold joinDatasets.
  rewrite (map_ext_in (fun file => fileDataMap file c) (fun file => fileDataMap file c'))
    by (intros; now apply same_fileDataMap).
  apply fold_left_ext. intros result key.
  destruct (JoinType_eqb joinType INNER && _); [reflexivity|].
  destruct (JoinType_eqb joinType LEFT && _); [reflexivity|].
  apply fold_left_ext. intros res combo. now rewrite same_joinedRowOf.
Qed.

Lemma same_calculateJoinStats : calculateJoinStats files c = calculateJoinStats files c'.
Proof.
  unfold calculateJoinStats.
  now rewrite (map_ext_in (fun f => getKeyCountsFromFile f c)
                          (fun f => getKeyCountsFromFile f c'))
    by (intros; now apply same_keyCounts).
Qed.
End SameMappings.

Lemma find_app_first {A : Type} (p : A -> bool) (l l' : list A) (a : A) :
  find p l = Some a -> find p (l ++ l') = Some a.
Proof.
  induction l as [|x l IH]; simpl; [discriminate|].
  destruct (p x); [trivial|exact IH].
Qed.

Lemma find_app_none {A : Type} (p : A -> bool) (l l' : list A) :
  (forall x, In x l' -> p x = false) -> find p (l ++ l') = find p l.
Proof.
  intro H. induction l as [|x l IH]; simpl.
  - destruct (find p l') as [a|] eqn:E; [|reflexivity].
    apply find_some in E. destruct E as [Hin Hp]. rewrite (H a Hin) in Hp. discriminate.
  - destruct (p x); [reflexivity|exact IH].
Qed.

(** X11.  A join reads of the candidate its key name and, for each
    dataset, the first mapping that names it.  Mappings added after the
    others change neither the join nor the estimates when each of them
    names a dataset that is mapped already or that is not among the
    datasets. *)
Theorem later_mappings_are_ignored
        (files : list ParsedFile) (c : JoinCandidate) (extra : list ColumnMapping)
        (joinType : JoinType) :
  (forall m f, In m extra -> In f files -> fileName m = name f ->
               getKeyColumnForFile f c <> None) ->
  let c' := {| keyName := keyName c;
               confidenceScore := confidenceScore c;
               reasoning := reasoning c;
               columnMappings := columnMappings c ++ extra |} in
  joinDatasets files c' joinType = joinDatasets files c joinType
  /\ calculateJoinStats files c' = calculateJoinStats files c.
Proof.
  intros H c'.
  assert (Hcols : forall f, In f files ->
                    getKeyColumnForFile f c' = getKeyColumnForFile f c).
  { intros f Hf. unfold getKeyColumnForFile. subst c'. simpl.
    destruct (find (fun m => String.eqb (fileName m) (name f)) (columnMappings c))
      as [m|] eqn:E.
    - now rewrite (find_app_first _ _ extra m E).
    - rewrite find_app_none; [now rewrite E|].
      intros x Hx. destruct (String.eqb (fileName x) (name f)) eqn:Ex; [|reflexivity].
      apply String.eqb_eq in Ex. exfalso. apply (H x f Hx Hf Ex).
      unfold getKeyColumnForFile. now rewrite E. }
  split.
  - now apply same_joinDatasets.
  - now apply same_calculateJoinStats.
Qed.

Lemma later_mappings_witness :
  (forall m f,
      In m [{| fileName := "Sales_Orders.csv"; columnName := "OrderID" |};
            {| fileName := "ghost.csv"; columnName := "id" |}] ->
      In f Demo.demoFiles -> fileName m = name f ->
      getKeyColumnForFile f Demo.demoCandidate <> None)
  /\ joinDatasets Demo.demoFiles
       {| keyName := keyName Demo.demoCandidate;
          confidenceScore := confidenceScore Demo.demoCandidate;
          reasoning := reasoning Demo.demoCandidate;
          columnMappings :=
            columnMappings Demo.demoCandidate
            ++ [{| fileName := "Sales_Orders.csv"; columnName := "OrderID" |};
                {| fileName := "ghost.csv"; columnName := "id" |}] |} INNER
     = joinDatasets Demo.demoFiles Demo.demoCandidate INNER.
Proof.
  assert (H : forall m f,
             In m [{| fileName := "Sales_Orders.csv"; columnName := "OrderID" |};
                   {| fileName := "ghost.csv"; columnName := "id" |}] ->
             In f Demo.demoFiles -> fileName m = name f ->
             getKeyColumnForFile f Demo.demoCandidate <> None).
  { intros m f _ [<-|[<-|[]]] _; discriminate. }
  split; [exact H|].
  exact (proj1 (later_mappings_are_ignored Demo.demoFiles Demo.demoCandidate _ INNER H)).
Defined.

(** X12.  A candidate that maps none of the datasets joins nothing: every
    join type returns no record and every estimate is zero. *)
Theorem unmapped_candidate_joins_nothing
        (files : list ParsedFile) (c : JoinCandidate) (joinType : JoinType) :
  (forall f, In f files -> getKeyColumnForFile f c = None) ->
  joinDatasets files c joinType = []
  /\ calculateJoinStats files c = zeroStats.
Proof.
  intro H.
  assert (Hkeys : allKeys files c = []).
  { unfold allKeys. replace (flat_map (fun f => keyStream f c) files) with (@nil string);
      [reflexivity|].
    symmetry. induction files as [|f fs IH]; simpl; [reflexivity|].
    rewrite (unmapped_keyStream f c) by (apply H; now left).
    apply IH. intros; apply H; now right. }
  split.
  - now rewrite joinDatasets_by_key, Hkeys.
  - unfold calculateJoinStats. destruct files as [|f fs]; [reflexivity|].
    remember (f :: fs) as l. 
    replace (length (map (fun f => getKeyCountsFromFile f c) l) =? 0) with false
      by (subst l; reflexivity).
    now rewrite unionKeys_keyCounts, Hkeys.
Qed.

Lemma unmapped_candidate_witness :
  (forall f, In f Demo.demoFiles ->
             getKeyColumnForFile f (Examples.candidateOn "ID" []) = None)
  /\ joinDatasets Demo.demoFiles (Examples.candidateOn "ID" []) OUTER = [].
Proof.
  assert (H : forall f, In f Demo.demoFiles ->
                getKeyColumnForFile f (Examples.candidateOn "ID" []) = None)
    by (intros; reflexivity).
  split; [exact H|].
  exact (proj1 (unmapped_candidate_joins_nothing Demo.demoFiles _ OUTER H)).
Defined.

(* ================================================================== *)
(** * Sanitized file names *)
(* ================================================================== *)

Lemma dotFree_app_dot (a b : string) : dotFree (a ++ String "." b) = false.
Proof.
  induction a as [|ch a IH]; simpl; [reflexivity|].
  rewrite IH. apply andb_false_r.
Qed.

Lemma extensionChars_dotFree (s : string) : extensionChars s = true -> dotFree s = true.
Proof.
  induction s as [|ch s IH]; simpl; [reflexivity|].
  intro H. apply andb_true_iff in H. destruct H as [H1 H2].
  apply andb_true_iff in H1. destruct H1 as [_ H1].
  now rewrite H1, IH.
Qed.

Lemma matchesExtension_dotted (ch : ascii) (s : string) :
  dotFree s = false -> matchesExtension (String ch s) = false.
Proof.
  intro H. destruct s as [|d s]; [reflexivity|].
  cbn [matchesExtension].
  destruct (extensionChars (String d s)) eqn:E; [|apply andb_false_r].
  apply extensionChars_dotFree in E. congruence.
Qed.

Lemma stripExtension_dotted (base ext : string) :
  ext <> EmptyString -> extensionChars ext = true ->
  stripExtension (base ++ String "." ext) = base.
Proof.
  intros Hne Hext. induction base as [|ch base IH].
  - simpl. destruct ext as [|d ext]; [congruence|]. now rewrite Hext.
  - cbn [append stripExtension].
    rewrite matchesExtension_dotted by apply dotFree_app_dot.
    now rewrite IH.
Qed.

Lemma stripExtension_dotFree (s : string) : dotFree s = true -> stripExtension s = s.
Proof.
  induction s as [|ch s IH]; [reflexivity|].
  cbn [dotFree]. intro H. apply andb_true_iff in H. destruct H as [H1 H2].
  apply negb_true_iff in H1. cbn [stripExtension].
  replace (matchesExtension (String ch s)) with false.
  - now rewrite IH.
  - destruct s; simpl; now rewrite ?H1.
Qed.

Lemma replaceNonAlnum_allClean (s : string) : allClean (replaceNonAlnum s) = true.
Proof.
  induction s as [|ch s IH]; simpl; [reflexivity|].
  rewrite IH, andb_true_r. destruct (isAlnum ch) eqn:E; [now rewrite E|reflexivity].
Qed.

Lemma allClean_dotFree (s : string) : allClean s = true -> dotFree s = true.
Proof.
  induction s as [|ch s IH]; simpl; [reflexivity|].
  intro H. apply andb_true_iff in H. destruct H as [H1 H2].
  rewrite (IH H2), andb_true_r. apply negb_true_iff.
  destruct (Ascii.eqb ch ".") eqn:E; [|reflexivity].
  apply Ascii.eqb_eq in E. subst ch. discriminate H1.
Qed.

Lemma replaceNonAlnum_fixed (s : string) : allClean s = true -> replaceNonAlnum s = s.
Proof.
  induction s as [|ch s IH]; simpl; [reflexivity|].
  intro H. apply andb_true_iff in H. destruct H as [H1 H2].
  rewrite (IH H2). destruct (isAlnum ch) eqn:E; [reflexivity|].
  simpl in H1. apply Ascii.eqb_eq in H1. now subst.
Qed.

Lemma replaceNonAlnum_length (s : string) :
  String.length (replaceNonAlnum s) = String.length s.
Proof. induction s as [|ch s IH]; simpl; [reflexivity|now rewrite IH]. Qed.

Lemma stripExtension_length (s : string) :
  String.length (stripExtension s) <= String.length s.
Proof.
  induction s as [|ch s IH]; [simpl; lia|].
  cbn [stripExtension]. destruct (matchesExtension (String ch s)); simpl; lia.
Qed.

(** X13.  A name that ends in a dot and an extension (one or more
    characters, none of them a dot or a slash) loses exactly the extension,
    whatever comes before the dot: the column names of such a file do not
    depend on its extension. *)
Theorem cleanFileName_drops_extension (base ext col : string) :
  ext <> EmptyString ->
  extensionChars ext = true ->
  stripExtension (base ++ "." ++ ext) = base
  /\ cleanFileName (base ++ "." ++ ext) = replaceNonAlnum base
  /\ newColName (base ++ "." ++ ext) col = (replaceNonAlnum base ++ " - " ++ col)%string.
Proof.
  intros Hne Hext.
  assert (H : stripExtension (base ++ "." ++ ext) = base)
    by (exact (stripExtension_dotted base ext Hne Hext)).
  unfold newColName, cleanFileName. rewrite H. repeat split.
Qed.

Lemma cleanFileName_drops_extension_witness :
  "xlsx" <> EmptyString
  /\ extensionChars "xlsx" = true
  /\ cleanFileName ("Q3 sales.v2" ++ "." ++ "xlsx") = replaceNonAlnum "Q3 sales.v2".
Proof.
  assert (H1 : "xlsx" <> EmptyString) by discriminate.
  assert (H2 : extensionChars "xlsx" = true) by reflexivity.
  split; [exact H1|]. split; [exact H2|].
  exact (proj1 (proj2 (cleanFileName_drops_extension "Q3 sales.v2" "xlsx" "" H1 H2))).
Defined.

(** X14.  A sanitized name is made of letters, digits and underscores
    only, is no longer than the name, and is not changed when it is
    sanitized once more; a name without a dot keeps its length. *)
Theorem cleanFileName_idempotent (n : string) :
  allClean (cleanFileName n) = true
  /\ cleanFileName (cleanFileName n) = cleanFileName n
  /\ String.length (cleanFileName n) <= String.length n
  /\ (dotFree n = true -> String.length (cleanFileName n) = String.length n).
Proof.
  assert (H : allClean (cleanFileName n) = true) by apply replaceNonAlnum_allClean.
  split; [exact H|]. split; [|split].
  - unfold cleanFileName at 1.
    rewrite stripExtension_dotFree by (now apply allClean_dotFree).
    now apply replaceNonAlnum_fixed.
  - unfold cleanFileName. rewrite replaceNonAlnum_length. apply stripExtension_length.
  - intro Hd. unfold cleanFileName.
    now rewrite replaceNonAlnum_length, stripExtension_dotFree.
Qed.

(** ** The names of saved and downloaded joins *)

Lemma noWhiteSpace_app (a b : string) :
  noWhiteSpace (a ++ b) = noWhiteSpace a && noWhiteSpace b.
Proof.
  induction a as [|ch a IH]; simpl; [reflexivity|].
  now rewrite IH, andb_assoc.
Qed.

Lemma replaceWhiteSpaceRuns_noWhiteSpace (inRun : bool) (s : string) :
  noWhiteSpace (AnalysisResult.replaceWhiteSpaceRuns inRun s) = true.
Proof.
  revert inRun. induction s as [|ch s IH]; intro inRun; simpl; [reflexivity|].
  destruct (isWhiteSpace ch) eqn:E.
  - destruct inRun; simpl; apply IH.
  - simpl. now rewrite E, IH.
Qed.

Lemma replaceWhiteSpaceRuns_fixed (inRun : bool) (s : string) :
  noWhiteSpace s = true -> AnalysisResult.replaceWhiteSpaceRuns inRun s = s.
Proof.
  revert inRun. induction s as [|ch s IH]; intros inRun H; simpl in *; [reflexivity|].
  apply andb_true_iff in H. destruct H as [H1 H2].
  apply negb_true_iff in H1. now rewrite H1, IH.
Qed.

(** X15.  The name under which a join is saved or downloaded tells the
    join type: two names are equal only for the same join type, whatever
    the candidates.  The name holds no white space, and a key name without
    white space is taken into it as it is. *)
Theorem join_file_names :
  (forall t t' c c', AnalysisResult.fileName t c = AnalysisResult.fileName t' c' -> t = t')
  /\ (forall t c, noWhiteSpace (AnalysisResult.fileName t c) = true)
  /\ (forall t c,
         noWhiteSpace (keyName c) = true ->
         AnalysisResult.fileName t c
         = (AnalysisResult.fileNamePrefix t ++ "_" ++ keyName c)%string).
Proof.
  split; [|split].
  - intros t t' c c'. unfold AnalysisResult.fileName.
    destruct t, t'; simpl; intro E; try reflexivity; discriminate E.
  - intros t c. unfold AnalysisResult.fileName.
    rewrite !noWhiteSpace_app, replaceWhiteSpaceRuns_noWhiteSpace.
    now destruct t.
  - intros t c H. unfold AnalysisResult.fileName.
    now rewrite replaceWhiteSpaceRuns_fixed.
Qed.

(* ================================================================== *)
(** * What is put into a prompt *)
(* ================================================================== *)

Lemma fold_set_keys (g : string -> value) (l : list string) (o : object) (k : string) :
  In k (obj_keys (fold_left (fun o y => obj_set o y (g y)) l o)) ->
  In k (obj_keys o) \/ In k l.
Proof.
  unfold obj_keys. rewrite in_map_iff. intros [[k' v] [E H]]. simpl in E. subst k'.
  apply (fold_set_In (fun y => y) g) in H.
  destruct H as [H|[a [Ha [-> _]]]]; [left|now right].
  change k with (fst (k, v)). now apply in_map.
Qed.

(** X16.  [prepareFileSummary] puts at most three rows into a prompt: the
    first rows of the preview, in order, each cut down to the columns
    listed in the headers; a column that is not a header is left out. *)
Theorem prepareFileSummary_sample (file : ParsedFile) :
  let s := GeminiPrompts.prepareFileSummary file in
  GeminiPrompts.FileSummary.fileName s = name file
  /\ length (GeminiPrompts.FileSummary.sampleData s)
     = Nat.min 3 (length (previewData file))
  /\ length (GeminiPrompts.FileSummary.sampleData s) <= 3
  /\ (forall i sample,
         nth_error (GeminiPrompts.FileSummary.sampleData s) i = Some sample ->
         exists row,
           nth_error (previewData file) i = Some row
           /\ (forall h, In h (headers file) -> obj_get sample h = obj_get row h)
           /\ (forall col, In col (obj_keys sample) -> In col (headers file))
           /\ (forall col, ~ In col (headers file) -> obj_get sample col = VUndefined)).
Proof.
  intro s. subst s. unfold GeminiPrompts.prepareFileSummary.
  cbn [GeminiPrompts.FileSummary.fileName GeminiPrompts.FileSummary.sampleData].
  rewrite length_map, length_firstn.
  split; [reflexivity|]. split; [reflexivity|]. split; [lia|].
  intros i sample H. rewrite nth_error_map, nth_error_firstn in H.
  destruct (i <? 3); [|discriminate].
  destruct (nth_error (previewData file) i) as [row|]; [|discriminate].
  injection H as <-. exists row. split; [reflexivity|].
  assert (Hkeys : forall col,
             In col (obj_keys (fold_left (fun simplifiedRow header =>
                                            obj_set simplifiedRow header
                                                    (obj_get row header))
                                         (headers file) [])) ->
             In col (headers file)).
  { intros col Hc. apply (fold_set_keys (obj_get row)) in Hc.
    destruct Hc as [[]|Hc]. exact Hc. }
  split; [|split].
  - intros h Hh. exact (fold_set_get (obj_get row) (headers file) [] h Hh).
  - exact Hkeys.
  - intros col Hc. apply obj_get_missing. intro Hin. apply Hc. now apply Hkeys.
Qed.

(* ================================================================== *)
(** * How the calls to the reasoning service end *)
(* ================================================================== *)

Lemma handleResponse_returns (JSON_parse : string -> completion value)
      (responseText : option string) :
  exists rows, handleResponse JSON_parse responseText = Returned rows.
Proof.
  destruct responseText as [t|]; simpl; [|eauto].
  destruct (String.eqb t ""); [eauto|].
  destruct (JSON_parse t) as [v|msg]; [|eauto].
  destruct v; eauto.
Qed.

(** X17.  [generateSemanticMerge] throws under one message only, whatever
    went wrong: it throws exactly when the API key is missing or empty or
    the call to the service fails, and it returns what the response
    handling returns otherwise. *)
Theorem generateSemanticMerge_outcomes
        (JSON_parse : string -> completion value) (apiKey : option string)
        (generateContent : completion (option string)) :
  match generateSemanticMerge JSON_parse apiKey generateContent with
  | Returned rows =>
      GeminiPrompts.noApiKey apiKey = false
      /\ exists responseText,
          generateContent = Returned responseText
          /\ handleResponse JSON_parse responseText = Returned rows
  | Thrown message =>
      message = "Failed to perform AI Semantic Merge."
      /\ (GeminiPrompts.noApiKey apiKey = true
          \/ exists e, generateContent = Thrown e)
  end.
Proof.
  unfold generateSemanticMerge, GeminiPrompts.noApiKey.
  destruct apiKey as [k|]; [|split; [reflexivity|now left]].
  destruct (String.eqb k ""); [split; [reflexivity|now left]|].
  destruct generateContent as [t|e]; [|split; [reflexivity|right; eauto]].
  destruct (handleResponse_returns JSON_parse t) as [rows H].
  rewrite H. split; [reflexivity|]. eauto.
Qed.

Lemma orText_nonempty (t : option string) (fallback : string) :
  fallback <> "" -> GeminiPrompts.orText t fallback <> "".
Proof.
  intro H. unfold GeminiPrompts.orText. destruct t as [s|]; [|exact H].
  destruct (String.eqb s "") eqn:E; [exact H|]. now apply String.eqb_neq.
Qed.

(** X18.  [generateMergePlan] never throws and never gives an empty plan:
    it returns the text of the service when there is one, a fixed sentence
    when the text is missing or empty, and another fixed sentence when the
    API key is missing or the call fails. *)
Theorem generateMergePlan_outcomes
        (apiKey : option string) (generateContent : completion (option string)) :
  exists plan,
    GeminiPrompts.generateMergePlan apiKey generateContent = Returned plan
    /\ plan <> ""
    /\ (GeminiPrompts.noApiKey apiKey = true \/ (exists e, generateContent = Thrown e) ->
        plan = "Error generating plan. Please write your instructions manually.")
    /\ (forall t,
           GeminiPrompts.noApiKey apiKey = false ->
           generateContent = Returned (Some t) -> t <> "" -> plan = t)
    /\ (GeminiPrompts.noApiKey apiKey = false ->
        generateContent = Returned None \/ generateContent = Returned (Some "") ->
        plan = "Could not generate plan.").
Proof.
  unfold GeminiPrompts.generateMergePlan.
  destruct (GeminiPrompts.noApiKey apiKey) eqn:K.
  - eexists. split; [reflexivity|]. split; [discriminate|].
    repeat split; intros; congruence.
  - destruct generateContent as [t|e].
    + eexists. split; [reflexivity|]. split; [apply orText_nonempty; discriminate|].
      split; [|split].
      * intros [H|[e H]]; discriminate H.
      * intros s _ [= ->] Hs. simpl. now rewrite (eqb_neq_false s "" Hs).
      * intros _ [[= ->]|[= ->]]; reflexivity.
    + eexists. split; [reflexivity|]. split; [discriminate|].
      split; [reflexivity|]. split; [intros; discriminate|].
      intros _ [H|H]; discriminate H.
Qed.

Lemma sliceLast_length {A : Type} (n : nat) (l : list A) :
  length (GeminiPrompts.sliceLast n l) = Nat.min n (length l).
Proof.
  unfold GeminiPrompts.sliceLast. rewrite length_skipn.
  destruct (Nat.min_spec n (length l)) as [[H ->]|[H ->]]; lia.
Qed.

Lemma sliceLast_snoc {A : Type} (n : nat) (l : list A) (x : A) :
  GeminiPrompts.sliceLast (S n) (l ++ [x]) = GeminiPrompts.sliceLast n l ++ [x].
Proof.
  unfold GeminiPrompts.sliceLast. rewrite length_app. simpl.
  replace (length l + 1 - S n) with (length l - n) by lia.
  rewrite skipn_app.
  replace (length l - n - length l) with 0 by lia. reflexivity.
Qed.

(** X19.  [chatWithDataset] never throws and never gives an empty reply.
    The request holds at most eleven messages: the last ten of the history
    at most, oldest first, then the user's message. *)
Theorem chatWithDataset_outcomes
        (apiKey : option string)
        (generateContent : list (GeminiPrompts.Role * string) -> completion (option string))
        (aiContext : option GeminiPrompts.AIContext) (userMessage : string) :
  (exists reply,
      GeminiPrompts.chatWithDataset apiKey generateContent aiContext userMessage
      = Returned reply
      /\ reply <> "")
  /\ length (GeminiPrompts.chatContents aiContext userMessage) <= 11
  /\ (forall ctx,
         aiContext = Some ctx ->
         exists older recent,
           GeminiPrompts.chatHistory ctx = older ++ recent
           /\ length recent = Nat.min 10 (length (GeminiPrompts.chatHistory ctx))
           /\ GeminiPrompts.chatContents aiContext userMessage
              = map (fun msg => (GeminiPrompts.role msg, GeminiPrompts.text msg)) recent
                ++ [(GeminiPrompts.user, userMessage)])
  /\ (aiContext = None ->
      GeminiPrompts.chatContents aiContext userMessage
      = [(GeminiPrompts.user, userMessage)]).
Proof.
  split; [|split; [|split]].
  - unfold GeminiPrompts.chatWithDataset.
    destruct (GeminiPrompts.noApiKey apiKey).
    + eexists. split; [reflexivity|discriminate].
    + destruct (generateContent _) as [t|e].
      * eexists. split; [reflexivity|]. apply orText_nonempty. discriminate.
      * eexists. split; [reflexivity|discriminate].
  - unfold GeminiPrompts.chatContents.
    rewrite length_app, length_map, sliceLast_length. cbn [length].
    match goal with
    | |- Nat.min 10 ?n + _ <= _ => pose proof (Nat.le_min_l 10 n)
    end.
    lia.
  - intros ctx ->. unfold GeminiPrompts.chatContents.
    exists (firstn (length (GeminiPrompts.chatHistory ctx) - 10)
                   (GeminiPrompts.chatHistory ctx)),
           (GeminiPrompts.sliceLast 10 (GeminiPrompts.chatHistory ctx)).
    split; [symmetry; apply firstn_skipn|]. split; [apply sliceLast_length|reflexivity].
  - intros ->. reflexivity.
Qed.

(** X20.  [handleSendMessage] ignores an input of white space.  For any
    other input the history grows by exactly two messages, the user's and
    the model's, whose text is never empty, whatever the service does; and
    the request that is sent holds the user's message twice at its end,
    once from the history, to which it was added before the call, and once
    as the new message. *)
Theorem handleSendMessage_history
        (apiKey : option string)
        (generateContent : list (GeminiPrompts.Role * string) -> completion (option string))
        (now1 now2 : nat) (description input : string)
        (aiContext : option GeminiPrompts.AIContext) :
  let history :=
    match aiContext with Some ctx => GeminiPrompts.chatHistory ctx | None => [] end in
  let userMsg :=
    {| GeminiPrompts.role := GeminiPrompts.user; GeminiPrompts.text := input;
       GeminiPrompts.timestamp := now1 |} in
  let sent :=
    GeminiPrompts.chatContents
      (Some {| GeminiPrompts.userDescription := Some description;
               GeminiPrompts.chatHistory := history ++ [userMsg] |}) input in
  (trim input = "" ->
   InsightsModal.handleSendMessage apiKey generateContent now1 now2 description input
     aiContext = aiContext)
  /\ (trim input <> "" ->
      exists reply,
        reply <> ""
        /\ InsightsModal.handleSendMessage apiKey generateContent now1 now2 description
             input aiContext
           = Some {| GeminiPrompts.userDescription := Some description;
                     GeminiPrompts.chatHistory :=
                       history
                       ++ [userMsg;
                           {| GeminiPrompts.role := GeminiPrompts.model;
                              GeminiPrompts.text := reply;
                              GeminiPrompts.timestamp := now2 |}] |}
        /\ (GeminiPrompts.noApiKey apiKey = false ->
            forall t, generateContent sent = Returned (Some t) -> t <> "" -> reply = t))
  /\ exists earlier,
      sent = earlier ++ [(GeminiPrompts.user, input); (GeminiPrompts.user, input)].
Proof.
  intros history userMsg sent. split; [|split].
  - intro H. unfold InsightsModal.handleSendMessage. now rewrite H, String.eqb_refl.
  - intro H. unfold InsightsModal.handleSendMessage.
    rewrite (eqb_neq_false _ _ H). fold history. fold userMsg.
    change (GeminiPrompts.text userMsg) with input.
    unfold GeminiPrompts.chatWithDataset. fold sent.
    destruct (GeminiPrompts.noApiKey apiKey).
    + eexists. split; [|split; [rewrite <- app_assoc; reflexivity|discriminate]].
      discriminate.
    + destruct (generateContent sent) as [t|e].
      * eexists. split; [|split; [rewrite <- app_assoc; reflexivity|]].
        -- apply orText_nonempty. discriminate.
        -- intros _ s [= ->] Hs. simpl. now rewrite (eqb_neq_false s "" Hs).
      * eexists. split; [|split; [rewrite <- app_assoc; reflexivity|]].
        -- discriminate.
        -- intros _ s Hs. discriminate Hs.
  - subst sent. unfold GeminiPrompts.chatContents. cbn [GeminiPrompts.chatHistory].
    rewrite (sliceLast_snoc 9), map_app. simpl.
    eexists. rewrite <- app_assoc. reflexivity.
Qed.

Lemma handleSendMessage_witness :
  trim "Which region sells most?" <> ""
  /\ exists reply,
      reply <> ""
      /\ InsightsModal.handleSendMessage (Some "key") (fun _ => Returned (Some "North."))
           1 2 "Q3 sales" "Which region sells most?" None
         = Some {| GeminiPrompts.userDescription := Some "Q3 sales";
                   GeminiPrompts.chatHistory :=
                     [{| GeminiPrompts.role := GeminiPrompts.user;
                         GeminiPrompts.text := "Which region sells most?";
                         GeminiPrompts.timestamp := 1 |};
                      {| GeminiPrompts.role := GeminiPrompts.model;
                         GeminiPrompts.text := reply;
                         GeminiPrompts.timestamp := 2 |}] |}.
Proof.
  assert (H : trim "Which region sells most?" <> "") by (vm_compute; discriminate).
  split; [exact H|].
  destruct (proj1 (proj2 (handleSendMessage_history (Some "key")
                            (fun _ => Returned (Some "North.")) 1 2 "Q3 sales"
                            "Which region sells most?" None)) H)
    as (reply & H1 & H2 & _).
  exists reply. split; [exact H1|exact H2].
Defined.

(* ================================================================== *)
(** * The files of the workspace *)
(* ================================================================== *)







(* ================================================================== *)
(** * Joins on unique keys *)
(* ================================================================== *)










